(** * Tic Tac Toe on a 5 x 5 board: the game engine and its web adapter

    A shallow embedding of [tic_tac_toe.py] (the engine and the terminal
    prompt) and of [app.py] (the session-backed web adapter), followed by
    the properties of the engine that the specification states.

    Conventions of the embedding:
    - a Python [str] is a [string], its text in UTF-8; the cell markers are
      [" "], ["X"], ["O"];
    - a Python [int] is a [Z]; a tuple or list of cells is a [list string];
    - subscripting follows Python: an index [i] with [-len <= i < 0] counts
      from the end, anything outside [-len, len) raises [IndexError];
    - a function that may raise returns a [result]. *)

From Stdlib Require Import ZArith Lia Ascii String.
From stdpp Require Import base option list strings pretty gmap.

Local Open Scope string_scope.
Local Open Scope list_scope.
Local Open Scope Z_scope.

(** ** Exceptions *)

Inductive exn : Set :=
  | IndexError
  | ValueError
  | TemplateError.

Inductive result (A : Type) : Type :=
  | Ok (a : A)
  | Raise (e : exn).

Arguments Ok {A} a.
Arguments Raise {A} e.

#[global] Instance result_ret : MRet result := fun A a => Ok a.
#[global] Instance result_bind : MBind result := fun A B f m =>
  match m with
  | Ok a => f a
  | Raise e => Raise e
  end.

(** ** Python sequences *)

(** [range(n)]: empty when [n <= 0]. *)
Definition range (n : Z) : list Z := seqZ 0 n.

(** The position addressed by subscript [i] in a sequence of length [len]. *)
Definition py_index (len : nat) (i : Z) : result nat :=
  let n := Z.of_nat len in
  if decide (0 <= i < n) then Ok (Z.to_nat i)
  else if decide (- n <= i < 0) then Ok (Z.to_nat (n + i))
  else Raise IndexError.

(** [l[i]] *)
Definition py_getitem {A} (l : list A) (i : Z) : result A :=
  k ← py_index (length l) i;
  match l !! k with
  | Some x => Ok x
  | None => Raise IndexError
  end.

(** [l[i] = x] on a list, returning the list after the assignment. *)
Definition py_setitem {A} (l : list A) (i : Z) (x : A) : result (list A) :=
  k ← py_index (length l) i;
  Ok (<[k := x]> l).

Arguments py_index : simpl never.
Arguments py_getitem : simpl never.
Arguments py_setitem : simpl never.

(** Truth value of an [Optional[str]]: [None] and [""] are falsy. *)
Definition py_truthy (v : option string) : bool :=
  match v with
  | Some s => negb (String.eqb s "")
  | None => false
  end.

(** ** tic_tac_toe.py *)

Definition BOARD_SIZE : Z := 5.
Definition TOTAL_CELLS : Z := BOARD_SIZE * BOARD_SIZE.

Definition generate_winning_lines (size : Z) : list (list Z) :=
  let lines := [] in
  (* Rows *)
  let lines :=
    foldl (fun lines row => lines ++ [(fun col => row * size + col) <$> range size])
          lines (range size) in
  (* Columns *)
  let lines :=
    foldl (fun lines col => lines ++ [(fun row => col + row * size) <$> range size])
          lines (range size) in
  (* Main diagonals *)
  let lines := lines ++ [(fun i => i * size + i) <$> range size] in
  let lines := lines ++ [(fun i => i * size + (size - 1 - i)) <$> range size] in
  lines.

Definition WINNING_LINES : list (list Z) :=
  Eval vm_compute in generate_winning_lines BOARD_SIZE.

Record GameState : Type := mkGameState {
  board : list string;
  active : string
}.

(** [all(cells[idx] == first for idx in idxs)]: stops at the first mismatch. *)
Fixpoint all_equal (cells : list string) (first : string) (idxs : list Z)
  : result bool :=
  match idxs with
  | [] => Ok true
  | idx :: rest =>
      c ← py_getitem cells idx;
      if String.eqb c first then all_equal cells first rest else Ok false
  end.

(** The loop of [check_winner] over the lines still to be scanned. *)
Fixpoint check_lines (cells : list string) (lines : list (list Z))
  : result (option string) :=
  match lines with
  | [] => Ok None
  | line :: rest =>
      i0 ← py_getitem line 0;
      first ← py_getitem cells i0;
      won ← (if negb (String.eqb first " ")
             then all_equal cells first (tail line)
             else Ok false);
      if won : bool then Ok (Some first) else check_lines cells rest
  end.

(** [check_winner]: the winning symbol of the first won line, if any. *)
Definition check_winner (board : list string) : result (option string) :=
  let cells := board in
  check_lines cells WINNING_LINES.

(** [is_draw]: the board is completely filled. *)
Definition is_draw (board : list string) : bool :=
  forallb (fun cell => negb (String.eqb cell " ")) board.

(** [make_move]: place the active player's mark and switch the turn. *)
Definition make_move (state : GameState) (slot : Z) : result GameState :=
  board' ← py_setitem (board state) slot (active state);
  let next_player := if String.eqb (active state) "X" then "O" else "X" in
  Ok (mkGameState board' next_player).

(** [new_game]; [None] stands for a call without argument. *)
Definition new_game (starting_player : option string) : GameState :=
  {| board := replicate (Z.to_nat TOTAL_CELLS) " ";
     active := default "X" starting_player |}.

(** [evaluate_state]: ["X"] or ["O"] for a winner, ["draw"], or [None]. *)
Definition evaluate_state (state : GameState) : result (option string) :=
  winner ← check_winner (board state);
  if py_truthy winner then Ok winner
  else if is_draw (board state) then Ok (Some "draw")
  else Ok None.

(** *** The terminal prompt

    [get_move] reads lines until one is acceptable.  The console is a list
    of the lines typed, already stripped; the function returns what it
    printed (the prompts left out) and the slot, or [None] when the input
    ends first.  [isdigit] and [int] are modelled on ASCII text: on a line
    with other characters [str.isdigit] and [int] follow the Unicode
    tables, which are not part of the model, and the statements about the
    prompt are made for ASCII lines ([ascii_text]). *)

(** The text is ASCII. *)
Definition ascii_text (s : string) : Prop :=
  Forall (fun c => (N_of_ascii c < 128)%N) (list_ascii_of_string s).

(** An ASCII digit. *)
Definition is_digit (c : ascii) : bool :=
  let n := Z.of_N (N_of_ascii c) in (48 <=? n) && (n <=? 57).

(** [s.isdigit()] on ASCII text: not empty, and digits only. *)
Definition isdigit (s : string) : bool :=
  match list_ascii_of_string s with
  | [] => false
  | cs => forallb is_digit cs
  end.

(** The decimal value of a string of ASCII digits. *)
Definition int_of_digits (s : string) : Z :=
  foldl (fun acc c => 10 * acc + (Z.of_N (N_of_ascii c) - 48)) 0
        (list_ascii_of_string s).

(** CPython's default limit on the digits of a decimal string
    ([sys.int_info.default_max_str_digits]). *)
Definition INT_MAX_STR_DIGITS : Z := 4300.

(** [int(s)] for a string of ASCII digits: its decimal value, leading
    zeros allowed; [ValueError] when it has more digits than the limit. *)
Definition py_int (s : string) : result Z :=
  if decide (INT_MAX_STR_DIGITS < Z.of_nat (String.length s)) then Raise ValueError
  else Ok (int_of_digits s).

Definition MSG_NOT_A_NUMBER : string := "Please enter a number between 1 and 25.".
Definition MSG_OUTSIDE : string := "That position is outside the board. Try again.".
Definition MSG_TAKEN : string := "That square is already taken. Choose another.".

Fixpoint get_move (player : string) (board : list string) (inputs : list string)
  : list string * result (option Z) :=
  match inputs with
  | [] => ([], Ok None)
  | raw :: inputs' =>
      if negb (isdigit raw) then
        let '(out, r) := get_move player board inputs' in (MSG_NOT_A_NUMBER :: out, r)
      else
        match py_int raw with
        | Raise e => ([], Raise e)
        | Ok n =>
            let slot := n - 1 in
            if negb (bool_decide (slot ∈ range TOTAL_CELLS)) then
              let '(out, r) := get_move player board inputs' in (MSG_OUTSIDE :: out, r)
            else
              match py_getitem board slot with
              | Raise e => ([], Raise e)
              | Ok c =>
                  if negb (String.eqb c " ") then
                    let '(out, r) := get_move player board inputs' in
                    (MSG_TAKEN :: out, r)
                  else ([], Ok (Some slot))
              end
        end
  end.

(** *** [make_move] on the object store

    The same function with Python's objects made explicit: tuples and
    [GameState] records are immutable objects, [list(...)] allocates a
    fresh mutable list, and the subscript assignment updates that list in
    place. *)

Definition loc := positive.

Inductive obj : Type :=
  | PyTuple (items : list string)
  | PyList (items : list string)
  | PyGameState (board_ref : loc) (active_mark : string).

Definition alloc (h : gmap loc obj) (o : obj) : gmap loc obj * loc :=
  let l := fresh (dom h) in (<[l := o]> h, l).

(** The [GameState] value held at [l], read through its board reference. *)
Definition read_state (h : gmap loc obj) (l : loc) : option GameState :=
  match h !! l with
  | Some (PyGameState b a) =>
      match h !! b with
      | Some (PyTuple items) => Some (mkGameState items a)
      | _ => None
      end
  | _ => None
  end.

Definition make_move_store (h : gmap loc obj) (state : loc) (slot : Z)
  : option (result (gmap loc obj * loc)) :=
  match h !! state with
  | Some (PyGameState b a) =>
      match h !! b with
      | Some (PyTuple items) =>
          (* board = list(state.board) *)
          let '(h1, lb) := alloc h (PyList items) in
          (* board[slot] = state.active *)
          match py_setitem items slot a with
          | Raise e => Some (Raise e)
          | Ok items' =>
              let h2 := <[lb := PyList items']> h1 in
              let next_player := if String.eqb a "X" then "O" else "X" in
              (* GameState(tuple(board), next_player) *)
              let '(h3, lt) := alloc h2 (PyTuple items') in
              let '(h4, ls) := alloc h3 (PyGameState lt next_player) in
              Some (Ok (h4, ls))
          end
      | _ => None
      end
  | _ => None
  end.

(** ** app.py *)

Module App.

(** The two keys of the visitor's session that the adapter uses; [None]
    is an absent key. *)
Record Session : Type := mkSession {
  s_board : option (list string);
  s_active : option string
}.

Definition _set_state (state : GameState) (session : Session) : Session :=
  {| s_board := Some (board state); s_active := Some (active state) |}.

Definition _get_state (session : Session) : Session * GameState :=
  let board := s_board session in
  let active := default "X" (s_active session) in
  match board with
  | Some cells =>
      if bool_decide (cells = []) || negb (Z.of_nat (length cells) =? TOTAL_CELLS)
      then let state := new_game None in (_set_state state session, state)
      else (session, mkGameState cells active)
  | None =>
      let state := new_game None in (_set_state state session, state)
  end.

Definition MSG_FINISHED : string :=
  "The game is finished. Start a new game to continue.".
Definition MSG_INVALID : string := "Invalid move selection.".
Definition MSG_OUTSIDE : string := "That position is outside the board.".
Definition MSG_TAKEN : string := "That square is already taken.".
Definition MSG_RESET : string := "Started a new game.".

(** The handler of [POST /move].  [position] is the outcome of
    [int(raw_position)], [None] when it raises [ValueError].  The handler
    returns the session it leaves behind and the message it flashes. *)
Definition move (session : Session) (position : option Z)
  : result (Session * option string) :=
  let '(session, state) := _get_state session in
  outcome ← evaluate_state state;
  if py_truthy outcome then Ok (session, Some MSG_FINISHED)
  else
    match position with
    | None => Ok (session, Some MSG_INVALID)
    | Some position =>
        if bool_decide (position < 0 ∨ position >= TOTAL_CELLS) then
          Ok (session, Some MSG_OUTSIDE)
        else
          c ← py_getitem (board state) position;
          if negb (String.eqb c " ") then Ok (session, Some MSG_TAKEN)
          else
            updated_state ← make_move state position;
            Ok (_set_state updated_state session, None)
    end.

(** The handler of [POST /reset]. *)
Definition reset (session : Session) : Session * option string :=
  (_set_state (new_game None) session, Some MSG_RESET).

(** The session that holds exactly [state]. *)
Definition session_of (state : GameState) : Session :=
  _set_state state {| s_board := None; s_active := None |}.

End App.

(** ** Vocabulary of the specification *)

Definition Empty : string := " ".
Definition MarkX : string := "X".
Definition MarkO : string := "O".

Definition is_mark (s : string) : Prop := s = MarkX ∨ s = MarkO.
Definition is_cell (s : string) : Prop := s = Empty ∨ is_mark s.

(** A board of the data model: N² cells, each Empty, X or O. *)
Definition valid_board (b : list string) : Prop :=
  Z.of_nat (length b) = TOTAL_CELLS ∧ Forall is_cell b.

(** Number of non-Empty cells. *)
Definition marked (b : list string) : nat :=
  length (filter (fun c => c ≠ Empty) b).

(** Line [line] is won by [m] on [cells]: every index of the line holds
    the same non-Empty [m]. *)
Definition line_won (cells : list string) (line : list Z) (m : string) : Prop :=
  m ≠ Empty ∧ line ≠ [] ∧ Forall (fun idx => py_getitem cells idx = Ok m) line.

(** The cell [j] of line [k] in a list of lines. *)
Definition line_cell (lines : list (list Z)) (k j : Z) : option Z :=
  lines !! Z.to_nat k ≫= fun line => line !! Z.to_nat j.

(** States that play can reach from a fresh game started by X or by O. *)
Inductive reachable : GameState → Prop :=
  | reach_new (m : string) :
      is_mark m → reachable (new_game (Some m))
  | reach_move (st st' : GameState) (slot : Z) :
      reachable st → make_move st slot = Ok st' → reachable st'.

(** ** Definitions used by the statements *)

(** The lines of [generate_winning_lines], one definition per loop body. *)
Definition row_line (size row : Z) : list Z :=
  (fun col => row * size + col) <$> range size.
Definition col_line (size col : Z) : list Z :=
  (fun row => col + row * size) <$> range size.
Definition diag_line (size : Z) : list Z :=
  (fun i => i * size + i) <$> range size.
Definition anti_line (size : Z) : list Z :=
  (fun i => i * size + (size - 1 - i)) <$> range size.

(** A line that [check_winner] can scan on [cells] without an exception. *)
Definition scannable (cells : list string) (line : list Z) : Prop :=
  line ≠ [] ∧ Forall (fun idx => 0 <= idx < Z.of_nat (length cells)) line.

(** Some states used below. *)
Definition st_fresh : GameState := new_game None.

(** X holds row 0, O holds four cells of row 1, O is next to move. *)
Definition st_x_wins : GameState :=
  {| board := ["X"; "X"; "X"; "X"; "X";
               "O"; "O"; "O"; "O"; " ";
               " "; " "; " "; " "; " ";
               " "; " "; " "; " "; " ";
               " "; " "; " "; " "; " "];
     active := "O" |}.

(** A full board without a monochrome row, column or diagonal. *)
Definition st_draw : GameState :=
  {| board := ["X"; "O"; "X"; "O"; "X";
               "X"; "O"; "X"; "O"; "X";
               "O"; "X"; "O"; "X"; "O";
               "O"; "X"; "O"; "X"; "O";
               "X"; "O"; "X"; "O"; "X"];
     active := "O" |}.

Ltac solve_valid_board :=
  split; [reflexivity|];
  repeat first [ apply List.Forall_nil | apply List.Forall_cons ];
  first [ by left | by right; left | by right; right ].

(** Moves applied in sequence, as the rounds of play do. *)
Fixpoint play (st : GameState) (slots : list Z) : result GameState :=
  match slots with
  | [] => Ok st
  | slot :: rest => st' ← make_move st slot; play st' rest
  end.

(** The turn switch of [make_move]. *)
Definition next_player (a : string) : string :=
  if String.eqb a "X" then "O" else "X".

(** What [_get_state] does when it does not trust the session. *)
Definition fresh_session : App.Session :=
  {| App.s_board := Some (replicate 25 Empty); App.s_active := Some MarkX |}.

(** X and O have each moved once on a fresh game. *)
Definition st_two_moves : GameState :=
  {| board := ["X"; " "; " "; " "; " ";
               "O"; " "; " "; " "; " ";
               " "; " "; " "; " "; " ";
               " "; " "; " "; " "; " ";
               " "; " "; " "; " "; " "];
     active := "X" |}.

(** A store that holds [st_two_moves]: its board tuple at 1, the state
    record at 2. *)
Definition store_two_moves : gmap loc obj :=
  <[2%positive := PyGameState 1%positive (active st_two_moves)]>
    (<[1%positive := PyTuple (board st_two_moves)]> ∅).

(** ** The rest of tic_tac_toe.py *)

(** *** Text *)

(** The line feed. *)
Definition NL : string := String (ascii_of_nat 10) EmptyString.

(** [str(n)] of an [int]. *)
Definition str (n : Z) : string := pretty n.

(** [len(s)] of a [str]: the number of code points, that is of the bytes
    of its UTF-8 text that are not continuation bytes. *)
Definition py_len (s : string) : Z :=
  Z.of_nat (length (filter (fun c => N.land (N_of_ascii c) 192 ≠ 128%N)
                           (list_ascii_of_string s))).

(** [c * n] for a one-character string [c]; empty when [n <= 0]. *)
Definition str_repeat (c : string) (n : Z) : string :=
  String.concat "" (replicate (Z.to_nat n) c).

(** ["{:^width}".format(value)]: centred, the odd space on the right,
    and never cut. *)
Definition format_center (width : Z) (value : string) : string :=
  let padding := width - py_len value in
  if decide (padding <= 0) then value
  else
    let left := padding / 2 in
    str_repeat " " left +:+ value +:+ str_repeat " " (padding - left).

(** [range(start, stop, step)] for a positive [step]. *)
Definition range_step (start stop step : Z) : list Z :=
  (fun k => start + k * step) <$> range ((stop - start + step - 1) / step).

(** *** [render_board] *)

Definition cell_width : Z := Z.max 1 (py_len (str TOTAL_CELLS)).

(** The inner function [display_value] of [render_board]. *)
Definition display_value (cells : list string) (idx : Z) : result string :=
  symbol ← py_getitem cells idx;
  let value := if negb (String.eqb symbol " ") then symbol else str (idx + 1) in
  Ok (format_center cell_width value).

(** One iteration of the loop over the rows. *)
Definition render_row (cells : list string) (start : Z) : result string :=
  values ← mapM (display_value cells) (seqZ start BOARD_SIZE);
  let row := String.concat " | " values in
  Ok (" " +:+ row +:+ " ").

Definition divider : string :=
  NL +:+ String.concat "+" ((fun _ => str_repeat "-" (cell_width + 2)) <$> range BOARD_SIZE)
     +:+ NL.

Definition render_board (cells : list string) : result string :=
  rows ← mapM (render_row cells) (range_step 0 TOTAL_CELLS BOARD_SIZE);
  Ok (String.concat divider rows).

(** *** [want_to_continue]

    The console is again the list of lines typed, already stripped;
    [lower] is modelled on ASCII.  The function returns what it printed and
    its answer, [None] when the input ends first. *)





(** *** [play_round]

    [get_move_rest] is what [get_move] leaves of the console: the lines
    after the one it accepted, or after the one on which it raised. *)

Fixpoint get_move_rest (board : list string) (inputs : list string) : list string :=
  match inputs with
  | [] => []
  | raw :: inputs' =>
      if negb (isdigit raw) then get_move_rest board inputs'
      else
        match py_int raw with
        | Raise e => inputs'
        | Ok n =>
            let slot := n - 1 in
            if negb (bool_decide (slot ∈ range TOTAL_CELLS)) then
              get_move_rest board inputs'
            else
              match py_getitem board slot with
              | Raise e => inputs'
              | Ok c =>
                  if negb (String.eqb c " ") then get_move_rest board inputs'
                  else inputs'
              end
        end
  end.

(** How a round ends: with an announcement, at the end of the input
    ([EOFError] in [input]), or with an exception raised on the way. *)
Inductive round_end : Type :=
  | RoundWon (winner : string)
  | RoundDraw
  | RoundEOF
  | RoundRaise (e : exn).

(** The loop of [play_round] from [state].  It returns what was printed
    (the prompts of [input] left out), how the round ended and the lines
    left on the console; [None] when [fuel] iterations were not enough. *)
Fixpoint play_round_loop (fuel : nat) (state : GameState) (inputs : list string)
  : option (list string * round_end * list string) :=
  match fuel with
  | O => None
  | S fuel' =>
      match render_board (board state) with
      | Raise e => Some ([], RoundRaise e, inputs)
      | Ok picture =>
          let '(asked, r) := get_move (active state) (board state) inputs in
          let inputs' := get_move_rest (board state) inputs in
          let printed := (NL +:+ picture) :: asked in
          match r with
          | Raise e => Some (printed, RoundRaise e, inputs')
          | Ok None => Some (printed, RoundEOF, inputs')
          | Ok (Some slot) =>
              match make_move state slot with
              | Raise e => Some (printed, RoundRaise e, inputs')
              | Ok state' =>
                  match evaluate_state state' with
                  | Raise e => Some (printed, RoundRaise e, inputs')
                  | Ok outcome =>
                      if bool_decide (outcome ∈ [Some "X"; Some "O"]) then
                        match render_board (board state') with
                        | Raise e => Some (printed, RoundRaise e, inputs')
                        | Ok picture' =>
                            let winner := default "" outcome in
                            Some (printed ++ [NL +:+ picture';
                                              NL +:+ "Player " +:+ winner +:+ " wins!"],
                                  RoundWon winner, inputs')
                        end
                      else if bool_decide (outcome = Some "draw") then
                        match render_board (board state') with
                        | Raise e => Some (printed, RoundRaise e, inputs')
                        | Ok picture' =>
                            Some (printed ++ [NL +:+ picture'; NL +:+ "It's a draw!"],
                                  RoundDraw, inputs')
                        end
                      else
                        match play_round_loop fuel' state' inputs' with
                        | Some (out, e, rest) => Some (printed ++ out, e, rest)
                        | None => None
                        end
                  end
              end
          end
      end
  end.

(** [play_round]: a round never takes more than [TOTAL_CELLS] moves. *)
Definition play_round (inputs : list string)
  : option (list string * round_end * list string) :=
  let state := new_game None in
  play_round_loop (Z.to_nat TOTAL_CELLS) state inputs.

(** ** The rest of app.py *)

Module Web.

(** [_board_rows]: the cells with their indices, row by row. *)
Definition _board_rows (cells : list string) : result (list (list (Z * string))) :=
  mapM (fun start =>
          mapM (fun idx => c ← py_getitem cells idx; Ok (idx, c))
               (seqZ start BOARD_SIZE))
       (range_step 0 TOTAL_CELLS BOARD_SIZE).

(** The keyword arguments that [index] hands to [render_template]. *)
Record Context : Type := mkContext {
  rows : list (list (Z * string));
  board_size : Z;
  active_player : string;
  outcome : option string;
  total_cells : Z
}.

(** The body of [index] up to the call of [render_template]: the session
    as [_get_state] leaves it, and the arguments of the call. *)
Definition index_context (session : App.Session) : result (App.Session * Context) :=
  let '(session, state) := App._get_state session in
  outcome ← evaluate_state state;
  let cells := board state in
  rows ← _board_rows cells;
  Ok (session,
      {| rows := rows; board_size := BOARD_SIZE; active_player := active state;
         outcome := outcome; total_cells := TOTAL_CELLS |}).

(** The handler of [GET /].  Flask's [render_template] on ["index.html"],
    a template that is not part of the sources, is a parameter: it
    returns the page or raises ([TemplateError] stands for whatever it
    raises, a missing template included). *)
Definition index (render_template : Context → result string)
    (session : App.Session) : result (App.Session * string) :=
  r ← index_context session;
  page ← render_template r.2;
  Ok (r.1, page).

(** The three routes. *)
Inductive request : Type :=
  | GetIndex
  | PostMove (position : option Z)
  | PostReset.

(** The session as the handler of a request leaves it; for [GET /] this is
    the session at the call of [render_template]. *)
Definition serve (session : App.Session) (req : request) : result App.Session :=
  match req with
  | GetIndex => r ← index_context session; Ok r.1
  | PostMove position => r ← App.move session position; Ok r.1
  | PostReset => Ok (App.reset session).1
  end.

(** Requests served one after the other on the same session. *)
Fixpoint serve_all (session : App.Session) (reqs : list request) : result App.Session :=
  match reqs with
  | [] => Ok session
  | req :: reqs' => session' ← serve session req; serve_all session' reqs'
  end.

End Web.

(** ** Further vocabulary *)

Definition empty_session : App.Session :=
  {| App.s_board := None; App.s_active := None |}.

(** Number of cells that hold [m]. *)
Definition count_mark (m : string) (b : list string) : nat :=
  length (filter (fun c => c = m) b).

(** The offset of cell [idx] in the text of [render_board]. *)
Definition cell_offset (idx : nat) : nat := (idx / 5) * 50 + 1 + (idx mod 5) * 5.

(** What a game started by X keeps true under validated moves: a board
    of 25 cells, each Empty, X or O; a mark to move; as many X as O when
    X is to move and one more when O is; every won line won by the
    player who moved last. *)
Definition game_invariant (st : GameState) : Prop :=
  valid_board (board st)
  ∧ is_mark (active st)
  ∧ count_mark MarkX (board st)
    = (count_mark MarkO (board st) + (if String.eqb (active st) MarkO then 1 else 0))%nat
  ∧ (∀ line m, line ∈ WINNING_LINES → line_won (board st) line m →
       m = next_player (active st)).

(** What [display_value] shows for a cell [idx] that holds [c]. *)
Definition shown (idx : nat) (c : string) : string :=
  format_center cell_width
    (if negb (String.eqb c " ") then c else str (Z.of_nat idx + 1)).

(** The text of a board whose 25 cells are shown as [ds]. *)
Definition layout (ds : list string) : string :=
  String.concat divider
    ((fun start => " " +:+ String.concat " | " (take 5 (drop start ds)) +:+ " ")
       <$> [0; 5; 10; 15; 20]%nat).

(** A session that holds a game played by the rules. *)
Definition good_session (session : App.Session) : Prop :=
  ∃ st, session = App.session_of st ∧ game_invariant st.

(** A session without a usable board: [_get_state] replaces it. *)
Definition blank_session (session : App.Session) : Prop :=
  App.s_board session = None
  ∨ ∃ cells, App.s_board session = Some cells
             ∧ Z.of_nat (length cells) ≠ TOTAL_CELLS.

(** * Properties *)

(** ** Python sequences *)

Section Sequences.
Context {A : Type}.
Implicit Types (l : list A) (i : Z).

Lemma py_index_nonneg (len : nat) i :
  0 <= i < Z.of_nat len → py_index len i = Ok (Z.to_nat i).
Proof. intros H. unfold py_index. by rewrite decide_True. Qed.

Lemma py_index_neg (len : nat) i :
  - Z.of_nat len <= i < 0 → py_index len i = Ok (Z.to_nat (Z.of_nat len + i)).
Proof.
  intros H. unfold py_index.
  rewrite decide_False by lia. by rewrite decide_True.
Qed.

Lemma py_index_raise (len : nat) i :
  py_index len i = Raise IndexError ↔ i < - Z.of_nat len ∨ Z.of_nat len <= i.
Proof.
  unfold py_index. repeat case_decide; split; intros Hr; try done; lia.
Qed.

Lemma py_index_exn (len : nat) i e : py_index len i = Raise e → e = IndexError.
Proof.
  unfold py_index. repeat case_decide; by intros [= <-].
Qed.

Lemma py_index_lt (len : nat) i k : py_index len i = Ok k → (k < len)%nat.
Proof.
  unfold py_index. repeat case_decide; intros [= <-]; lia.
Qed.

Lemma py_getitem_exn l i e : py_getitem l i = Raise e → e = IndexError.
Proof.
  unfold py_getitem. destruct (py_index (length l) i) as [k|e'] eqn:Hk.
  - cbn [mbind result_bind]. destruct (l !! k); by intros [= <-].
  - cbn [mbind result_bind]. intros [= <-]. by apply py_index_exn in Hk.
Qed.

Lemma py_getitem_nonneg l i x :
  0 <= i → l !! Z.to_nat i = Some x → py_getitem l i = Ok x.
Proof.
  intros Hi Hx. unfold py_getitem.
  rewrite py_index_nonneg; [by simpl; rewrite Hx|].
  apply lookup_lt_Some in Hx. lia.
Qed.

Lemma py_getitem_in_range l i :
  0 <= i < Z.of_nat (length l) → ∃ x, l !! Z.to_nat i = Some x ∧ py_getitem l i = Ok x.
Proof.
  intros Hi. destruct (lookup_lt_is_Some_2 l (Z.to_nat i)) as [x Hx]; [lia|].
  exists x. split; [done|]. apply py_getitem_nonneg; [lia|done].
Qed.

Lemma py_getitem_Ok_nonneg l i x :
  0 <= i → py_getitem l i = Ok x → l !! Z.to_nat i = Some x.
Proof.
  intros Hi. unfold py_getitem, py_index.
  case_decide; simpl.
  - destruct (l !! Z.to_nat i); by intros [= ->].
  - rewrite decide_False by lia. done.
Qed.
End Sequences.

Lemma foldl_snoc {A B} (f : B → A) (l : list B) (acc : list A) :
  foldl (fun acc x => acc ++ [f x]) acc l = acc ++ (f <$> l).
Proof.
  revert acc. induction l as [|x l IH]; intros acc; simpl.
  - by rewrite app_nil_r.
  - rewrite IH. by rewrite <- app_assoc.
Qed.

(** ** The winning-line generator *)

Section WinningLines.
Variable size : Z.

Lemma generate_winning_lines_unfold :
  generate_winning_lines size
  = (row_line size <$> range size) ++ (col_line size <$> range size)
    ++ [diag_line size; anti_line size].
Proof.
  unfold generate_winning_lines. rewrite !foldl_snoc. simpl.
  by rewrite <- !app_assoc.
Qed.

Lemma range_length : length (range size) = Z.to_nat size.
Proof. apply length_seqZ. Qed.

Lemma range_lookup (j : Z) :
  0 <= j < size → range size !! Z.to_nat j = Some j.
Proof.
  intros Hj. unfold range. rewrite lookup_seqZ_lt by lia. f_equal. lia.
Qed.

Lemma range_fmap_lookup {B} (f : Z → B) (j : Z) :
  0 <= j < size → (f <$> range size) !! Z.to_nat j = Some (f j).
Proof. intros Hj. by rewrite list_lookup_fmap, range_lookup. Qed.

(** A line built from a map that is injective on [0, size) and lands in
    the board is a well-formed line. *)
Lemma line_well_formed (f : Z → Z) :
  (∀ i j, 0 <= i < size → 0 <= j < size → f i = f j → i = j) →
  (∀ i, 0 <= i < size → 0 <= f i < size * size) →
  length (f <$> range size) = Z.to_nat size
  ∧ NoDup (f <$> range size)
  ∧ Forall (fun i => 0 <= i < size * size) (f <$> range size).
Proof.
  intros Hinj Hbound. split_and!.
  - by rewrite length_fmap, range_length.
  - apply NoDup_fmap_2_strong; [|apply NoDup_seqZ].
    intros x y Hx%elem_of_seqZ Hy%elem_of_seqZ. apply Hinj; lia.
  - apply Forall_fmap, Forall_seqZ. intros i Hi. apply Hbound. lia.
Qed.

Hypothesis size_pos : 1 <= size.

Lemma row_line_well_formed (row : Z) :
  0 <= row < size →
  length (row_line size row) = Z.to_nat size ∧ NoDup (row_line size row)
  ∧ Forall (fun i => 0 <= i < size * size) (row_line size row).
Proof. intros Hr. apply line_well_formed; intros; nia. Qed.

Lemma col_line_well_formed (col : Z) :
  0 <= col < size →
  length (col_line size col) = Z.to_nat size ∧ NoDup (col_line size col)
  ∧ Forall (fun i => 0 <= i < size * size) (col_line size col).
Proof. intros Hc. apply line_well_formed; intros; nia. Qed.

Lemma diag_line_well_formed :
  length (diag_line size) = Z.to_nat size ∧ NoDup (diag_line size)
  ∧ Forall (fun i => 0 <= i < size * size) (diag_line size).
Proof. apply line_well_formed; intros; nia. Qed.

Lemma anti_line_well_formed :
  length (anti_line size) = Z.to_nat size ∧ NoDup (anti_line size)
  ∧ Forall (fun i => 0 <= i < size * size) (anti_line size).
Proof.
  apply line_well_formed; [|intros; nia].
  intros i j Hi Hj Heq.
  destruct (decide (size = 1)) as [->|Hne]; [lia|]. nia.
Qed.
End WinningLines.

Lemma line_cell_rows (size k j : Z) :
  0 <= k < size → 0 <= j < size →
  line_cell (generate_winning_lines size) k j = Some (k * size + j).
Proof.
  intros Hk Hj. unfold line_cell. rewrite generate_winning_lines_unfold.
  rewrite lookup_app_l by (rewrite length_fmap, range_length; lia).
  rewrite (range_fmap_lookup size (row_line size) k Hk). simpl.
  unfold row_line. by rewrite range_fmap_lookup.
Qed.

Lemma line_cell_cols (size k j : Z) :
  0 <= k < size → 0 <= j < size →
  line_cell (generate_winning_lines size) (size + k) j = Some (k + j * size).
Proof.
  intros Hk Hj. unfold line_cell. rewrite generate_winning_lines_unfold.
  rewrite lookup_app_r by (rewrite length_fmap, range_length; lia).
  rewrite length_fmap, range_length.
  replace (Z.to_nat (size + k) - Z.to_nat size)%nat with (Z.to_nat k) by lia.
  rewrite lookup_app_l by (rewrite length_fmap, range_length; lia).
  rewrite (range_fmap_lookup size (col_line size) k Hk). simpl.
  unfold col_line. by rewrite range_fmap_lookup.
Qed.

Lemma line_cell_diags (size j : Z) :
  0 <= j < size →
  line_cell (generate_winning_lines size) (2 * size) j = Some (j * size + j)
  ∧ line_cell (generate_winning_lines size) (2 * size + 1) j
    = Some (j * size + (size - 1 - j)).
Proof.
  intros Hj. unfold line_cell. rewrite generate_winning_lines_unfold.
  rewrite !app_assoc.
  assert (Hlen : length ((row_line size <$> range size) ++ (col_line size <$> range size))
                 = Z.to_nat (2 * size)).
  { rewrite length_app, !length_fmap, range_length. lia. }
  split.
  - rewrite lookup_app_r by lia. rewrite Hlen, Nat.sub_diag. simpl.
    unfold diag_line. by rewrite range_fmap_lookup.
  - rewrite lookup_app_r by lia. rewrite Hlen.
    replace (Z.to_nat (2 * size + 1) - Z.to_nat (2 * size))%nat with 1%nat by lia.
    simpl. unfold anti_line. by rewrite range_fmap_lookup.
Qed.

(** C2. For every N >= 1, [generate_winning_lines N] has exactly 2N+2
    lines; each line has length N and holds N distinct indices of
    [0, N²); the lines come in a fixed order: line k (k < N) is row k,
    line N+k is column k, line 2N is the main diagonal and line 2N+1 the
    anti-diagonal; for N = 1 the result is four lines that all hold
    index 0. *)
Theorem generate_winning_lines_spec (N : Z) :
  1 <= N →
  Z.of_nat (length (generate_winning_lines N)) = 2 * N + 2
  ∧ Forall (fun line =>
              Z.of_nat (length line) = N ∧ NoDup line
              ∧ Forall (fun i => 0 <= i < N * N) line)
           (generate_winning_lines N)
  ∧ (∀ k j, 0 <= k < N → 0 <= j < N →
       line_cell (generate_winning_lines N) k j = Some (k * N + j)
       ∧ line_cell (generate_winning_lines N) (N + k) j = Some (k + j * N))
  ∧ (∀ j, 0 <= j < N →
       line_cell (generate_winning_lines N) (2 * N) j = Some (j * N + j)
       ∧ line_cell (generate_winning_lines N) (2 * N + 1) j
         = Some (j * N + (N - 1 - j)))
  ∧ generate_winning_lines 1 = [[0]; [0]; [0]; [0]].
Proof.
  intros HN. split_and!.
  - rewrite generate_winning_lines_unfold.
    rewrite !length_app, !length_fmap, !range_length. simpl. lia.
  - rewrite generate_winning_lines_unfold.
    assert (Hwf : ∀ line : list Z,
               length line = Z.to_nat N ∧ NoDup line
               ∧ Forall (fun i => 0 <= i < N * N) line →
               Z.of_nat (length line) = N ∧ NoDup line
               ∧ Forall (fun i => 0 <= i < N * N) line).
    { intros line (Hl & Hd & Hb). split_and!; [lia|done|done]. }
    rewrite !Forall_app. split_and!.
    + apply Forall_fmap, Forall_seqZ. intros r Hr.
      apply Hwf, row_line_well_formed; lia.
    + apply Forall_fmap, Forall_seqZ. intros c Hc.
      apply Hwf, col_line_well_formed; lia.
    + repeat constructor; try (apply Hwf; first
        [ apply diag_line_well_formed | apply anti_line_well_formed ]; done).
  - intros k j Hk Hj. split; [by apply line_cell_rows | by apply line_cell_cols].
  - intros j Hj. by apply line_cell_diags.
  - reflexivity.
Qed.

Lemma generate_winning_lines_spec_witness :
  1 <= 5
  ∧ Z.of_nat (length (generate_winning_lines 5)) = 2 * 5 + 2
  ∧ line_cell (generate_winning_lines 5) (2 * 5 + 1) 1 = Some 8.
Proof.
  assert (H5 : 1 <= 5) by lia.
  split; [exact H5|].
  destruct (generate_winning_lines_spec 5 H5) as (Hlen & _ & _ & Hd & _).
  split; [exact Hlen|]. apply (Hd 1). lia.
Defined.

(** ** Win detection *)

Lemma WINNING_LINES_eq : WINNING_LINES = generate_winning_lines BOARD_SIZE.
Proof. reflexivity. Qed.

Lemma WINNING_LINES_scannable (cells : list string) :
  Z.of_nat (length cells) = TOTAL_CELLS → Forall (scannable cells) WINNING_LINES.
Proof.
  intros Hlen. unfold scannable. rewrite Hlen.
  unfold WINNING_LINES, TOTAL_CELLS, BOARD_SIZE.
  repeat first [ apply List.Forall_nil | apply List.Forall_cons
               | split | discriminate | lia ].
Qed.

Lemma line_won_unique cells line m m' :
  line_won cells line m → line_won cells line m' → m = m'.
Proof.
  intros (_ & Hne & H) (_ & _ & H').
  destruct line as [|i l]; [done|].
  apply Forall_cons in H as [H _]. apply Forall_cons in H' as [H' _]. congruence.
Qed.

Lemma all_equal_spec cells first idxs :
  Forall (fun idx => 0 <= idx < Z.of_nat (length cells)) idxs →
  ∃ b, all_equal cells first idxs = Ok b
       ∧ (b = true ↔ Forall (fun idx => py_getitem cells idx = Ok first) idxs).
Proof.
  induction 1 as [|idx rest Hidx Hrest IH]; simpl.
  - exists true. split; [done|]. split; [constructor | done].
  - destruct (py_getitem_in_range cells idx Hidx) as (c & _ & Hc).
    rewrite Hc. cbn [mbind result_bind].
    destruct (String.eqb_spec c first) as [->|Hne].
    + destruct IH as (b & Hb & Hiff). exists b. split; [done|].
      rewrite Hiff. split; [by constructor|]. by intros [_ ?]%Forall_cons.
    + exists false. split; [done|]. split; [done|].
      intros [Hf _]%Forall_cons. congruence.
Qed.

(** One iteration of the loop: either the line is won and its mark is
    returned, or the line is not won and the scan moves on. *)
Lemma check_lines_cons cells line rest :
  scannable cells line →
  (∃ m, line_won cells line m ∧ check_lines cells (line :: rest) = Ok (Some m))
  ∨ ((∀ m, ¬ line_won cells line m)
     ∧ check_lines cells (line :: rest) = check_lines cells rest).
Proof.
  intros [Hne Hrange]. destruct line as [|i0 tl]; [done|].
  apply Forall_cons in Hrange as [Hi0 Htl].
  destruct (py_getitem_in_range cells i0 Hi0) as (first & _ & Hfirst).
  assert (Hm : ∀ m, line_won cells (i0 :: tl) m → m = first).
  { intros m (_ & _ & [H _]%Forall_cons). congruence. }
  assert (Hhead : py_getitem (i0 :: tl) 0 = Ok i0)
    by (by apply py_getitem_nonneg).
  cbn [check_lines tail]. rewrite Hhead. cbn [mbind result_bind]. rewrite Hfirst.
  cbn [mbind result_bind].
  destruct (String.eqb_spec first " ") as [Hsp|Hsp]; cbn [negb mbind result_bind].
  - right. split; [|done]. intros m Hw. pose proof (Hm m Hw) as ->.
    destruct Hw as [Hw _]. by apply Hw.
  - destruct (all_equal_spec cells first tl Htl) as (b & Hb & Hiff).
    rewrite Hb. cbn [mbind result_bind]. destruct b.
    + left. exists first. split; [|done].
      split_and!; [done|done|]. apply Forall_cons. split; [done|]. by apply Hiff.
    + right. split; [|done]. intros m Hw. pose proof (Hm m Hw) as ->.
      destruct Hw as (_ & _ & [_ Hw]%Forall_cons).
      apply Hiff in Hw. done.
Qed.

Lemma check_lines_none cells lines :
  Forall (scannable cells) lines →
  (∀ line m, line ∈ lines → ¬ line_won cells line m) →
  check_lines cells lines = Ok None.
Proof.
  induction 1 as [|line rest Hline Hrest IH]; intros Hno; [done|].
  destruct (check_lines_cons cells line rest Hline) as [(m & Hw & _)|[_ ->]].
  - exfalso. eapply Hno; [|exact Hw]. by left.
  - apply IH. intros l m Hl. apply Hno. by right.
Qed.

Lemma check_lines_first cells pre line post m :
  Forall (scannable cells) (pre ++ line :: post) →
  (∀ l m', l ∈ pre → ¬ line_won cells l m') →
  line_won cells line m →
  check_lines cells (pre ++ line :: post) = Ok (Some m).
Proof.
  induction pre as [|l pre IH]; intros Hsc Hno Hw.
  - apply Forall_cons in Hsc as [Hline _]. simpl app.
    destruct (check_lines_cons cells line post Hline) as [(m' & Hw' & ->)|[Hnw _]].
    + by rewrite (line_won_unique _ _ _ _ Hw Hw').
    + by destruct (Hnw m).
  - apply Forall_cons in Hsc as [Hl Hsc]. simpl app.
    destruct (check_lines_cons cells l (pre ++ line :: post) Hl)
      as [(m' & Hw' & _)|[_ ->]].
    + exfalso. eapply Hno; [|exact Hw']. by left.
    + apply IH; [done| |done]. intros l' m' Hl'. apply Hno. by right.
Qed.

Lemma check_lines_Some_inv cells lines m :
  Forall (scannable cells) lines →
  check_lines cells lines = Ok (Some m) →
  ∃ pre line post, lines = pre ++ line :: post
    ∧ (∀ l m', l ∈ pre → ¬ line_won cells l m')
    ∧ line_won cells line m.
Proof.
  induction 1 as [|line rest Hline Hrest IH]; intros Hres; [done|].
  destruct (check_lines_cons cells line rest Hline) as [(m' & Hw & Heq)|[Hnw Heq]].
  - rewrite Heq in Hres. injection Hres as ->.
    exists [], line, rest. split_and!; [done| |done]. by intros l m' ?%elem_of_nil.
  - rewrite Heq in Hres. destruct (IH Hres) as (pre & l & post & -> & Hno & Hw).
    exists (line :: pre), l, post. split_and!; [done| |done].
    intros l' m' [->|Hin]%elem_of_cons; [apply Hnw | by apply Hno].
Qed.

Lemma check_lines_None_inv cells lines :
  Forall (scannable cells) lines →
  check_lines cells lines = Ok None →
  ∀ line m, line ∈ lines → ¬ line_won cells line m.
Proof.
  induction 1 as [|l rest Hl Hrest IH]; intros Hres line m Hin.
  - by apply elem_of_nil in Hin.
  - destruct (check_lines_cons cells l rest Hl) as [(m' & _ & Heq)|[Hnw Heq]];
      [congruence|].
    rewrite Heq in Hres.
    apply elem_of_cons in Hin as [->|Hin]; [apply Hnw | by apply IH].
Qed.

Lemma check_lines_no_raise cells lines e :
  Forall (scannable cells) lines → check_lines cells lines ≠ Raise e.
Proof.
  induction 1 as [|l rest Hl Hrest IH]; [done|].
  destruct (check_lines_cons cells l rest Hl) as [(m' & _ & Heq)|[Hnw Heq]];
    rewrite Heq; [done|exact IH].
Qed.

Lemma is_draw_spec (b : list string) :
  is_draw b = true ↔ Forall (fun c => c ≠ Empty) b.
Proof.
  unfold is_draw. rewrite forallb_forall, Forall_forall.
  split; intros H c Hc.
  - apply list_elem_of_In, H in Hc.
    destruct (String.eqb_spec c " "); [done|]. done.
  - apply list_elem_of_In, H in Hc.
    destruct (String.eqb_spec c " "); [done|]. done.
Qed.

Lemma line_won_is_mark cells line m :
  Forall is_cell cells → line_won cells line m → is_mark m.
Proof.
  intros Hcells (Hm & Hne & Hall).
  destruct line as [|i l]; [done|]. apply Forall_cons in Hall as [Hi _].
  assert (Hin : m ∈ cells).
  { unfold py_getitem in Hi. destruct (py_index (length cells) i) as [k|]; [|done].
    cbn [mbind result_bind] in Hi.
    destruct (cells !! k) as [x|] eqn:Hk; [|done].
    injection Hi as ->. by eapply list_elem_of_lookup_2. }
  rewrite Forall_forall in Hcells. destruct (Hcells m Hin) as [?|?]; done.
Qed.

Lemma is_mark_truthy m : is_mark m → py_truthy (Some m) = true.
Proof. by intros [->| ->]. Qed.

Lemma evaluate_state_won (st : GameState) (m : string) :
  check_winner (board st) = Ok (Some m) → is_mark m →
  evaluate_state st = Ok (Some m).
Proof.
  intros Hw Hm. unfold evaluate_state. rewrite Hw. cbn [mbind result_bind].
  by rewrite is_mark_truthy.
Qed.

Lemma evaluate_state_not_won (st : GameState) :
  check_winner (board st) = Ok None →
  evaluate_state st = Ok (if is_draw (board st) then Some "draw" else None).
Proof.
  intros Hw. unfold evaluate_state. rewrite Hw. cbn [mbind result_bind py_truthy].
  by destruct (is_draw (board st)).
Qed.

(** C1. On every board of 25 cells, each Empty, X or O:
    [evaluate_state] returns the mark [m] exactly when the first won line
    of [WINNING_LINES], in the generator's order, is won by [m]; it
    returns a mark exactly when some line is won; when no line is won it
    returns ["draw"] if every cell is non-Empty and [None] otherwise. *)
Theorem evaluate_state_spec (st : GameState) :
  valid_board (board st) →
  (∀ m, evaluate_state st = Ok (Some m) ∧ is_mark m
        ↔ ∃ pre line post, WINNING_LINES = pre ++ line :: post
            ∧ (∀ l m', l ∈ pre → ¬ line_won (board st) l m')
            ∧ line_won (board st) line m)
  ∧ ((∃ m, evaluate_state st = Ok (Some m) ∧ is_mark m)
     ↔ ∃ line m, line ∈ WINNING_LINES ∧ line_won (board st) line m)
  ∧ ((∀ line m, line ∈ WINNING_LINES → ¬ line_won (board st) line m) →
     Forall (fun c => c ≠ Empty) (board st) →
     evaluate_state st = Ok (Some "draw"))
  ∧ ((∀ line m, line ∈ WINNING_LINES → ¬ line_won (board st) line m) →
     ¬ Forall (fun c => c ≠ Empty) (board st) →
     evaluate_state st = Ok None).
Proof.
  intros [Hlen Hcells].
  pose proof (WINNING_LINES_scannable (board st) Hlen) as Hsc.
  assert (Hfirst : ∀ m, evaluate_state st = Ok (Some m) ∧ is_mark m
        ↔ ∃ pre line post, WINNING_LINES = pre ++ line :: post
            ∧ (∀ l m', l ∈ pre → ¬ line_won (board st) l m')
            ∧ line_won (board st) line m).
  { intros m. split.
    - intros [Hev Hm]. apply check_lines_Some_inv; [done|].
      change (check_winner (board st) = Ok (Some m)).
      unfold evaluate_state in Hev.
      destruct (check_winner (board st)) as [[w|]|e]; cbn [mbind result_bind] in Hev.
      + destruct (py_truthy (Some w)); [congruence|].
        destruct (is_draw (board st)); [|done].
        injection Hev as <-. by destruct Hm.
      + cbn [py_truthy] in Hev. destruct (is_draw (board st)); [|done].
        injection Hev as <-. by destruct Hm.
      + done.
    - intros (pre & line & post & Heq & Hno & Hw).
      pose proof (line_won_is_mark _ _ _ Hcells Hw) as Hm. split; [|done].
      apply evaluate_state_won; [|done].
      unfold check_winner. rewrite Heq. rewrite Heq in Hsc.
      by apply check_lines_first. }
  assert (Hnone : (∀ line m, line ∈ WINNING_LINES → ¬ line_won (board st) line m) →
                  check_winner (board st) = Ok None).
  { intros Hno. by apply check_lines_none. }
  split_and!.
  - exact Hfirst.
  - split.
    + intros (m & Hm). apply Hfirst in Hm as (pre & line & post & Heq & _ & Hw).
      exists line, m. split; [|done]. rewrite Heq.
      apply elem_of_app. right. by left.
    + intros (line & m & Hin & Hw).
      destruct (check_lines (board st) WINNING_LINES) as [[w|]|e] eqn:Hres.
      * apply check_lines_Some_inv in Hres as (pre & l & post & Heq & Hno & Hw');
          [|done].
        exists w. apply Hfirst. by exists pre, l, post.
      * exfalso. by apply (check_lines_None_inv _ _ Hsc Hres line m).
      * exfalso. by apply (check_lines_no_raise _ _ e Hsc).
  - intros Hno Hfull. rewrite (evaluate_state_not_won st (Hnone Hno)).
    apply is_draw_spec in Hfull. by rewrite Hfull.
  - intros Hno Hfull. rewrite (evaluate_state_not_won st (Hnone Hno)).
    destruct (is_draw (board st)) eqn:Hd; [|done].
    by apply is_draw_spec in Hd.
Qed.

Lemma st_x_wins_valid : valid_board (board st_x_wins).
Proof. solve_valid_board. Qed.

Lemma evaluate_state_spec_witness :
  valid_board (board st_x_wins)
  ∧ ((∃ m, evaluate_state st_x_wins = Ok (Some m) ∧ is_mark m)
     ↔ ∃ line m, line ∈ WINNING_LINES ∧ line_won (board st_x_wins) line m).
Proof.
  split; [exact st_x_wins_valid|].
  apply (evaluate_state_spec st_x_wins st_x_wins_valid).
Defined.

Example scenario_in_progress :
  play st_fresh [0; 5; 1; 6; 2] ≫= evaluate_state = Ok None.
Proof. reflexivity. Qed.

Example scenario_win :
  play st_fresh [0; 5; 1; 6; 2; 7; 3; 8; 4] = Ok st_x_wins
  ∧ evaluate_state st_x_wins = Ok (Some "X").
Proof. split; reflexivity. Qed.

Example scenario_draw : evaluate_state st_draw = Ok (Some "draw").
Proof. reflexivity. Qed.

(** ** Applying a move *)

Lemma make_move_at (st : GameState) (slot : Z) (k : nat) :
  py_index (length (board st)) slot = Ok k →
  make_move st slot
  = Ok {| board := <[k := active st]> (board st);
          active := next_player (active st) |}.
Proof.
  intros Hk. unfold make_move, py_setitem. by rewrite Hk.
Qed.

Lemma make_move_active (st st' : GameState) (slot : Z) :
  make_move st slot = Ok st' → active st' = next_player (active st).
Proof.
  unfold make_move. destruct (py_setitem _ _ _); [|done].
  cbn [mbind result_bind]. by intros [= <-].
Qed.

Lemma next_player_spec (a : string) :
  (next_player a = MarkO ↔ a = MarkX)
  ∧ (a ≠ MarkX → next_player a = MarkX)
  ∧ (a = MarkO → next_player a = MarkX)
  ∧ next_player a ≠ a
  ∧ is_mark (next_player a).
Proof.
  unfold next_player, MarkX, MarkO.
  destruct (String.eqb_spec a "X") as [->|Hne].
  - split_and!; [done|done|done|done|by right].
  - split_and!; [done|done|done|congruence|by left].
Qed.

Lemma marked_insert (b : list string) (k : nat) (a : string) :
  b !! k = Some Empty → a ≠ Empty →
  marked (<[k := a]> b) = S (marked b).
Proof.
  unfold marked. revert k. induction b as [|c b IH]; intros k Hk Ha; [done|].
  destruct k as [|k]; simpl in Hk |- *.
  - injection Hk as ->. rewrite filter_cons_True by done.
    rewrite filter_cons_False by (intros H; by apply H). done.
  - destruct (decide (c ≠ Empty)).
    + rewrite !filter_cons_True by done. simpl. by rewrite IH.
    + rewrite !filter_cons_False by done. by rewrite IH.
Qed.

(** C3. For a validated move (board of 25 cells, index in [0, 25), the
    addressed cell Empty) by a non-Empty active mark, [make_move] returns
    a new state in which the addressed cell holds the previously active
    mark, the active mark has flipped (X to O, O to X, never unchanged)
    and exactly one more cell is non-Empty. *)
Theorem make_move_validated (st : GameState) (slot : Z) :
  Z.of_nat (length (board st)) = TOTAL_CELLS →
  0 <= slot < TOTAL_CELLS →
  py_getitem (board st) slot = Ok Empty →
  active st ≠ Empty →
  ∃ st', make_move st slot = Ok st'
    ∧ py_getitem (board st') slot = Ok (active st)
    ∧ (active st = MarkX → active st' = MarkO)
    ∧ (active st = MarkO → active st' = MarkX)
    ∧ active st' ≠ active st
    ∧ marked (board st') = S (marked (board st)).
Proof.
  intros Hlen Hslot Hcell Hact.
  assert (Hk : py_index (length (board st)) slot = Ok (Z.to_nat slot))
    by (apply py_index_nonneg; lia).
  eexists. split; [by apply make_move_at|]. cbn [board active].
  destruct (next_player_spec (active st)) as (Hxo & _ & Hox & Hne & _).
  split_and!.
  - apply py_getitem_nonneg; [lia|].
    apply list_lookup_insert_eq. lia.
  - intros Hx. by apply Hxo.
  - exact Hox.
  - exact Hne.
  - apply marked_insert; [|done]. apply py_getitem_Ok_nonneg; [lia|done].
Qed.

Lemma make_move_validated_witness :
  Z.of_nat (length (board st_fresh)) = TOTAL_CELLS
  ∧ 0 <= 12 < TOTAL_CELLS
  ∧ py_getitem (board st_fresh) 12 = Ok Empty
  ∧ active st_fresh ≠ Empty
  ∧ ∃ st', make_move st_fresh 12 = Ok st'
      ∧ py_getitem (board st') 12 = Ok (active st_fresh)
      ∧ (active st_fresh = MarkX → active st' = MarkO)
      ∧ (active st_fresh = MarkO → active st' = MarkX)
      ∧ active st' ≠ active st_fresh
      ∧ marked (board st') = S (marked (board st_fresh)).
Proof.
  assert (H1 : Z.of_nat (length (board st_fresh)) = TOTAL_CELLS) by reflexivity.
  assert (H2 : 0 <= 12 < TOTAL_CELLS) by (unfold TOTAL_CELLS, BOARD_SIZE; lia).
  assert (H3 : py_getitem (board st_fresh) 12 = Ok Empty) by reflexivity.
  assert (H4 : active st_fresh ≠ Empty)
    by (intros H; vm_compute in H; discriminate H).
  split; [exact H1|]. split; [exact H2|]. split; [exact H3|]. split; [exact H4|].
  exact (make_move_validated st_fresh 12 H1 H2 H3 H4).
Defined.

(** C9. Every state reachable from a fresh game started by X or by O has
    its active mark in {X, O}.  Whatever the input state, a [make_move]
    that returns leaves O active exactly when X was active, and X active
    for any other input mark; so its result always has a mark in {X, O}. *)
Theorem active_mark_invariant :
  (∀ st, reachable st → is_mark (active st))
  ∧ (∀ st slot st', make_move st slot = Ok st' →
       (active st' = MarkO ↔ active st = MarkX)
       ∧ (active st ≠ MarkX → active st' = MarkX)
       ∧ is_mark (active st')).
Proof.
  assert (Hstep : ∀ st slot st', make_move st slot = Ok st' →
       (active st' = MarkO ↔ active st = MarkX)
       ∧ (active st ≠ MarkX → active st' = MarkX)
       ∧ is_mark (active st')).
  { intros st slot st' Hmv. rewrite (make_move_active _ _ _ Hmv).
    destruct (next_player_spec (active st)) as (H1 & H2 & _ & _ & H3). done. }
  split; [|exact Hstep].
  induction 1 as [m Hm|st st' slot _ _ Hmv]; [exact Hm|].
  by apply (Hstep st slot st').
Qed.

Lemma active_mark_invariant_witness :
  reachable st_x_wins ∧ is_mark (active st_x_wins).
Proof.
  assert (Hr : reachable st_x_wins).
  { assert (Hplay : ∀ slots st st', reachable st → play st slots = Ok st' → reachable st').
    { induction slots as [|slot slots IH]; intros st st' Hst Hp; simpl in Hp.
      - by injection Hp as <-.
      - destruct (make_move st slot) as [st1|] eqn:Hmv; [|done].
        apply (IH st1 st'); [|done]. by apply (reach_move st st1 slot). }
    apply (Hplay [0; 5; 1; 6; 2; 7; 3; 8; 4] (new_game (Some "X"))).
    - apply reach_new. by left.
    - reflexivity. }
  split; [exact Hr|]. exact (proj1 active_mark_invariant st_x_wins Hr).
Defined.

(** C10. [make_move] checks nothing.  On a board of 25 cells, for every
    slot with -25 <= slot < 25 it returns normally, with the active mark
    written at position [slot] (position [25 + slot] for a negative
    slot) over whatever the cell held, all other cells kept and the turn
    switched; it raises [IndexError] exactly when slot >= 25 or
    slot < -25. *)
Theorem make_move_unchecked (st : GameState) (slot : Z) :
  Z.of_nat (length (board st)) = TOTAL_CELLS →
  (- TOTAL_CELLS <= slot < TOTAL_CELLS →
   let pos := Z.to_nat (if decide (slot < 0) then TOTAL_CELLS + slot else slot) in
   ∃ st', make_move st slot = Ok st'
     ∧ board st' = <[pos := active st]> (board st)
     ∧ board st' !! pos = Some (active st)
     ∧ (∀ i, i ≠ pos → board st' !! i = board st !! i)
     ∧ active st' = next_player (active st))
  ∧ (make_move st slot = Raise IndexError
     ↔ slot >= TOTAL_CELLS ∨ slot < - TOTAL_CELLS).
Proof.
  intros Hlen. split.
  - intros Hslot pos.
    assert (Hk : py_index (length (board st)) slot = Ok pos).
    { unfold pos. case_decide.
      - rewrite py_index_neg by lia. by rewrite Hlen.
      - apply py_index_nonneg. lia. }
    eexists. split; [by apply make_move_at|]. cbn [board active].
    split_and!; [done| |by intros i Hi; apply list_lookup_insert_ne|done].
    apply list_lookup_insert_eq. by apply py_index_lt in Hk.
  - unfold make_move, py_setitem.
    destruct (py_index (length (board st)) slot) as [k|e] eqn:Hk;
      [|pose proof (py_index_exn _ _ _ Hk) as ->];
      cbn [mbind result_bind].
    + split; [done|]. intros Hout. exfalso.
      assert (py_index (length (board st)) slot = Raise IndexError)
        by (apply py_index_raise; lia).
      congruence.
    + split; [|done]. intros _. apply py_index_raise in Hk. lia.
Qed.

Lemma make_move_unchecked_witness :
  Z.of_nat (length (board st_x_wins)) = TOTAL_CELLS
  ∧ - TOTAL_CELLS <= -25 < TOTAL_CELLS
  ∧ ∃ st', make_move st_x_wins (-25) = Ok st'
      ∧ board st' !! 0%nat = Some "O".
Proof.
  assert (H1 : Z.of_nat (length (board st_x_wins)) = TOTAL_CELLS) by reflexivity.
  assert (H2 : - TOTAL_CELLS <= -25 < TOTAL_CELLS)
    by (unfold TOTAL_CELLS, BOARD_SIZE; lia).
  split; [exact H1|]. split; [exact H2|].
  destruct (proj1 (make_move_unchecked st_x_wins (-25) H1) H2)
    as (st' & Hmv & _ & Hcell & _).
  exists st'. split; [exact Hmv|exact Hcell].
Defined.

(** ** A fresh game *)

(** C7. [new_game] returns a state whose 25 cells are all Empty and whose
    active mark is the starting mark given, X when none is given;
    [evaluate_state] on it returns [None] (in progress). *)
Theorem new_game_spec :
  ∀ starting_player : option string,
    Z.of_nat (length (board (new_game starting_player))) = TOTAL_CELLS
    ∧ Forall (fun c => c = Empty) (board (new_game starting_player))
    ∧ active (new_game starting_player) = default MarkX starting_player
    ∧ active (new_game None) = MarkX
    ∧ (∀ m, active (new_game (Some m)) = m)
    ∧ evaluate_state (new_game starting_player) = Ok None.
Proof.
  intros sp. split_and!; try reflexivity.
  unfold new_game. cbn [board]. apply Forall_replicate. done.
Qed.

(** ** The web adapter *)

Lemma get_state_session_of (st : GameState) :
  Z.of_nat (length (board st)) = TOTAL_CELLS →
  App._get_state (App.session_of st) = (App.session_of st, st).
Proof.
  intros Hlen. destruct st as [cells a]. cbn [board] in Hlen.
  unfold App._get_state, App.session_of, App._set_state. cbn [App.s_board App.s_active board active].
  rewrite bool_decide_eq_false_2 by (intros ->; done).
  assert (Heq : (Z.of_nat (length cells) =? TOTAL_CELLS) = true) by (by apply Z.eqb_eq).
  by rewrite Heq.
Qed.

(** C8. When the stored board is absent, or present with a length other
    than 25, [_get_state] stores a fresh initial state (all cells Empty,
    X active) in the session and returns it; reading the session again
    returns the same state. *)
Theorem get_state_fallback (session : App.Session) :
  (App.s_board session = None
   ∨ ∃ cells, App.s_board session = Some cells
              ∧ Z.of_nat (length cells) ≠ TOTAL_CELLS) →
  App._get_state session = (fresh_session, new_game None)
  ∧ board (new_game None) = replicate 25 Empty
  ∧ active (new_game None) = MarkX
  ∧ App._get_state fresh_session = (fresh_session, new_game None).
Proof.
  intros Hbad. split_and!; try reflexivity.
  unfold App._get_state.
  destruct Hbad as [->|(cells & -> & Hlen)]; [reflexivity|].
  apply Z.eqb_neq in Hlen. rewrite Hlen. by rewrite orb_true_r.
Qed.

Lemma get_state_fallback_witness :
  let session := {| App.s_board := Some ["X"; "O"]; App.s_active := Some "O" |} in
  (App.s_board session = None
   ∨ ∃ cells, App.s_board session = Some cells
              ∧ Z.of_nat (length cells) ≠ TOTAL_CELLS)
  ∧ App._get_state session = (fresh_session, new_game None).
Proof.
  intros session.
  assert (Hbad : App.s_board session = None
                 ∨ ∃ cells, App.s_board session = Some cells
                            ∧ Z.of_nat (length cells) ≠ TOTAL_CELLS).
  { right. exists ["X"; "O"]. split; [reflexivity|]. vm_compute. discriminate. }
  split; [exact Hbad|]. exact (proj1 (get_state_fallback session Hbad)).
Defined.

(** A stored board of the right length is returned as it is. *)
Lemma get_state_stored (session : App.Session) (cells : list string) :
  App.s_board session = Some cells →
  Z.of_nat (length cells) = TOTAL_CELLS →
  App._get_state session
  = (session, {| board := cells; active := default "X" (App.s_active session) |}).
Proof.
  intros Hb Hlen. unfold App._get_state. rewrite Hb.
  rewrite bool_decide_eq_false_2 by (intros ->; done).
  apply Z.eqb_eq in Hlen. by rewrite Hlen.
Qed.

(** C4, as the claim states it, fails on [make_move]: on a board that X
    has won, a move at the free cell 9 is applied. *)
Lemma make_move_accepts_on_terminal :
  evaluate_state st_x_wins = Ok (Some "X")
  ∧ ∃ st', make_move st_x_wins 9 = Ok st'
      ∧ board st' ≠ board st_x_wins
      ∧ board st' !! 9%nat = Some "O".
Proof.
  split; [reflexivity|]. eexists. split; [reflexivity|].
  split; [discriminate|reflexivity].
Qed.

(** C4, amended.  When the stored state evaluates to X, O or draw, the
    handler of [POST /move] rejects every request, whatever the position,
    with the "game is finished" message and leaves the session, board
    and active mark, as it was. *)
Theorem move_rejected_on_terminal
    (session : App.Session) (position : option Z) (o : string) :
  evaluate_state (App._get_state session).2 = Ok (Some o) →
  o = "X" ∨ o = "O" ∨ o = "draw" →
  App.move session position = Ok (session, Some App.MSG_FINISHED)
  ∧ (App._get_state session).1 = session.
Proof.
  intros Hev Ho.
  assert (Hsame : (App._get_state session).1 = session).
  { unfold App._get_state in Hev |- *.
    destruct (App.s_board session) as [cells|]; [|done].
    destruct (bool_decide (cells = []) || negb (Z.of_nat (length cells) =? TOTAL_CELLS));
      done. }
  split; [|exact Hsame].
  unfold App.move. destruct (App._get_state session) as [session' state].
  cbn [fst snd] in Hev, Hsame. subst session'. rewrite Hev.
  cbn [mbind result_bind].
  by destruct Ho as [->|[->| ->]].
Qed.

Lemma move_rejected_on_terminal_witness :
  evaluate_state (App._get_state (App.session_of st_draw)).2 = Ok (Some "draw")
  ∧ ("draw" = "X" ∨ "draw" = "O" ∨ "draw" = "draw")
  ∧ App.move (App.session_of st_draw) (Some 3)
    = Ok (App.session_of st_draw, Some App.MSG_FINISHED).
Proof.
  assert (H1 : evaluate_state (App._get_state (App.session_of st_draw)).2
               = Ok (Some "draw")) by reflexivity.
  assert (H2 : "draw" = "X" ∨ "draw" = "O" ∨ "draw" = "draw")
    by (right; right; reflexivity).
  split; [exact H1|]. split; [exact H2|].
  exact (proj1 (move_rejected_on_terminal (App.session_of st_draw) (Some 3) "draw" H1 H2)).
Defined.

(** ** Rejected moves *)




Lemma py_int_Ok (raw : string) :
  Z.of_nat (String.length raw) <= INT_MAX_STR_DIGITS →
  py_int raw = Ok (int_of_digits raw).
Proof. intros Hlen. unfold py_int. by rewrite decide_False by lia. Qed.

Lemma py_int_Raise (raw : string) :
  INT_MAX_STR_DIGITS < Z.of_nat (String.length raw) →
  py_int raw = Raise ValueError.
Proof. intros Hlen. unfold py_int. by rewrite decide_True by lia. Qed.

Lemma get_move_outside (player : string) (cells : list string)
    (raw : string) (inputs : list string) :
  isdigit raw = true →
  Z.of_nat (String.length raw) <= INT_MAX_STR_DIGITS →
  int_of_digits raw - 1 < 0 ∨ int_of_digits raw - 1 >= TOTAL_CELLS →
  get_move player cells (raw :: inputs)
  = (MSG_OUTSIDE :: (get_move player cells inputs).1,
     (get_move player cells inputs).2).
Proof.
  intros Hd Hlen Hout. cbn [get_move]. rewrite Hd, (py_int_Ok raw Hlen). cbn [negb].
  rewrite bool_decide_eq_false_2.
  - cbn [negb]. by destruct (get_move player cells inputs).
  - unfold range. rewrite elem_of_seqZ. lia.
Qed.

Lemma get_move_taken (player : string) (cells : list string)
    (raw : string) (inputs : list string) (c : string) :
  isdigit raw = true →
  Z.of_nat (String.length raw) <= INT_MAX_STR_DIGITS →
  0 <= int_of_digits raw - 1 < TOTAL_CELLS →
  py_getitem cells (int_of_digits raw - 1) = Ok c → c ≠ Empty →
  get_move player cells (raw :: inputs)
  = (MSG_TAKEN :: (get_move player cells inputs).1,
     (get_move player cells inputs).2).
Proof.
  intros Hd Hlen Hin Hc Hne. cbn [get_move]. rewrite Hd, (py_int_Ok raw Hlen).
  cbn [negb].
  rewrite bool_decide_eq_true_2 by (unfold range; rewrite elem_of_seqZ; lia).
  cbn [negb]. rewrite Hc.
  destruct (String.eqb_spec c " "); [done|]. cbn [negb].
  by destruct (get_move player cells inputs).
Qed.




(** ** [make_move] leaves its input alone *)

Lemma alloc_spec (h h' : gmap loc obj) (o : obj) (l : loc) :
  alloc h o = (h', l) → h !! l = None ∧ h' = <[l := o]> h.
Proof.
  unfold alloc. intros [= <- <-]. split; [|done].
  apply not_elem_of_dom, is_fresh.
Qed.

Lemma alloc_subseteq (h h' : gmap loc obj) (o : obj) (l : loc) :
  alloc h o = (h', l) → h ⊆ h'.
Proof.
  intros [Hl ->]%alloc_spec. by apply insert_subseteq.
Qed.

Lemma read_state_inv (h : gmap loc obj) (l : loc) (st : GameState) :
  read_state h l = Some st →
  ∃ b, h !! l = Some (PyGameState b (active st))
       ∧ h !! b = Some (PyTuple (board st)).
Proof.
  unfold read_state. intros H.
  destruct (h !! l) as [[| |b a]|] eqn:Hl; try done.
  destruct (h !! b) as [[items| |]|] eqn:Hb; try done.
  injection H as <-. by exists b.
Qed.

Lemma read_state_weaken (h h' : gmap loc obj) (l : loc) (st : GameState) :
  h ⊆ h' → read_state h l = Some st → read_state h' l = Some st.
Proof.
  intros Hsub (b & Hl & Hb)%read_state_inv. unfold read_state.
  rewrite (lookup_weaken _ _ _ _ Hl Hsub), (lookup_weaken _ _ _ _ Hb Hsub).
  by destruct st.
Qed.

(** The store after [make_move_store] extends the store before it, and
    the new state read from it is what [make_move] computes. *)
Lemma make_move_store_Ok (h : gmap loc obj) (l : loc) (st st' : GameState) (slot : Z) :
  read_state h l = Some st →
  make_move st slot = Ok st' →
  ∃ h' l', make_move_store h l slot = Some (Ok (h', l'))
    ∧ h ⊆ h' ∧ h !! l' = None ∧ read_state h' l' = Some st'.
Proof.
  intros (b & Hl & Hb)%read_state_inv Hmv.
  unfold make_move in Hmv. unfold make_move_store. rewrite Hl, Hb.
  destruct (alloc h (PyList (board st))) as [h1 lb] eqn:Ha1.
  destruct (py_setitem (board st) slot (active st)) as [items'|] eqn:Hset; [|done].
  cbn [mbind result_bind] in Hmv. injection Hmv as <-.
  set (h2 := <[lb := PyList items']> h1).
  destruct (alloc h2 (PyTuple items')) as [h3 lt] eqn:Ha3.
  destruct (alloc h3 (PyGameState lt (if (active st =? "X")%string then "O" else "X")))
    as [h4 ls] eqn:Ha4.
  apply alloc_spec in Ha1 as [Hlb Hh1].
  assert (Hh2 : h ⊆ h2).
  { unfold h2. rewrite Hh1, insert_insert_eq. by apply insert_subseteq. }
  pose proof (alloc_subseteq _ _ _ _ Ha3) as Hh3.
  pose proof (alloc_subseteq _ _ _ _ Ha4) as Hh4.
  apply alloc_spec in Ha3 as [Hlt Hh3eq].
  apply alloc_spec in Ha4 as [Hls Hh4eq].
  exists h4, ls. split_and!.
  - done.
  - by do 2 (etrans; [eassumption|]).
  - destruct (h !! ls) as [o|] eqn:Hold; [|done].
    assert (h3 !! ls = Some o) by (eapply lookup_weaken; [exact Hold|by etrans]).
    congruence.
  - unfold read_state. rewrite Hh4eq, lookup_insert_eq.
    rewrite lookup_insert_ne by (intros <-; rewrite Hh3eq, lookup_insert_eq in Hls; done).
    by rewrite Hh3eq, lookup_insert_eq.
Qed.

(** C6. For a validated move on a state held in the object store,
    [make_move] returns a new state and modifies no object that existed
    before the call: the input state, read again after the call, has the
    same board and the same active mark; the returned state is a new
    object, and each cell of its board other than the addressed one
    equals the corresponding cell of the input board. *)
Theorem make_move_preserves_input
    (h : gmap loc obj) (l : loc) (st : GameState) (slot : Z) :
  read_state h l = Some st →
  Z.of_nat (length (board st)) = TOTAL_CELLS →
  0 <= slot < TOTAL_CELLS →
  py_getitem (board st) slot = Ok Empty →
  ∃ h' l' st',
    make_move_store h l slot = Some (Ok (h', l'))
    ∧ make_move st slot = Ok st'
    ∧ (∀ k o, h !! k = Some o → h' !! k = Some o)
    ∧ read_state h' l = Some st
    ∧ h !! l' = None
    ∧ read_state h' l' = Some st'
    ∧ (∀ i, i ≠ Z.to_nat slot → board st' !! i = board st !! i).
Proof.
  intros Hread Hlen Hslot _.
  assert (Hk : py_index (length (board st)) slot = Ok (Z.to_nat slot))
    by (apply py_index_nonneg; lia).
  pose proof (make_move_at st slot _ Hk) as Hmv.
  destruct (make_move_store_Ok h l st _ slot Hread Hmv) as (h' & l' & Hst & Hsub & Hnew & Hread').
  eexists h', l', _. split_and!; [exact Hst|exact Hmv| | |exact Hnew|exact Hread'|].
  - intros k o Hko. by eapply lookup_weaken.
  - by eapply read_state_weaken.
  - intros i Hi. cbn [board]. by apply list_lookup_insert_ne.
Qed.

Lemma make_move_preserves_input_witness :
  read_state store_two_moves 2%positive = Some st_two_moves
  ∧ Z.of_nat (length (board st_two_moves)) = TOTAL_CELLS
  ∧ 0 <= 7 < TOTAL_CELLS
  ∧ py_getitem (board st_two_moves) 7 = Ok Empty
  ∧ ∃ h' l' st',
      make_move_store store_two_moves 2%positive 7 = Some (Ok (h', l'))
      ∧ read_state h' 2%positive = Some st_two_moves
      ∧ read_state h' l' = Some st'
      ∧ board st' !! 0%nat = Some "X".
Proof.
  assert (H1 : read_state store_two_moves 2%positive = Some st_two_moves)
    by reflexivity.
  assert (H2 : Z.of_nat (length (board st_two_moves)) = TOTAL_CELLS) by reflexivity.
  assert (H3 : 0 <= 7 < TOTAL_CELLS) by (unfold TOTAL_CELLS, BOARD_SIZE; lia).
  assert (H4 : py_getitem (board st_two_moves) 7 = Ok Empty) by reflexivity.
  split; [exact H1|]. split; [exact H2|]. split; [exact H3|]. split; [exact H4|].
  destruct (make_move_preserves_input store_two_moves 2%positive st_two_moves 7
              H1 H2 H3 H4)
    as (h' & l' & st' & Hst & _ & _ & Hin & _ & Hout & Hcells).
  exists h', l', st'. split; [exact Hst|]. split; [exact Hin|]. split; [exact Hout|].
  rewrite (Hcells 0%nat); [reflexivity | discriminate].
Defined.

(** * Further properties of the code *)

(** ** The generator outside its intended range *)

Lemma check_lines_empty_line (cells : list string) (rest : list (list Z)) :
  check_lines cells ([] :: rest) = Raise IndexError.
Proof. reflexivity. Qed.

(** X1. For a size of 0 or less the generator returns exactly two lines,
    both empty (the two diagonals), and [check_winner]'s scan over such
    lines raises [IndexError] on every board, at [line[0]]. *)
Theorem generate_winning_lines_nonpositive (size : Z) :
  size <= 0 →
  generate_winning_lines size = [[]; []]
  ∧ ∀ cells, check_lines cells (generate_winning_lines size) = Raise IndexError.
Proof.
  intros Hsize.
  assert (Heq : generate_winning_lines size = [[]; []]).
  { rewrite generate_winning_lines_unfold.
    unfold row_line, col_line, diag_line, anti_line, range.
    by rewrite !seqZ_nil by done. }
  split; [exact Heq|]. intros cells. rewrite Heq. apply check_lines_empty_line.
Qed.

Lemma generate_winning_lines_nonpositive_witness :
  -3 <= 0 ∧ generate_winning_lines (-3) = [[]; []].
Proof.
  assert (H : -3 <= 0) by lia.
  split; [exact H|]. exact (proj1 (generate_winning_lines_nonpositive (-3) H)).
Defined.

Lemma generate_winning_lines_length (size : Z) :
  0 <= size → Z.of_nat (length (generate_winning_lines size)) = 2 * size + 2.
Proof.
  intros Hsize. rewrite generate_winning_lines_unfold.
  rewrite !length_app, !length_fmap, !range_length. simpl. lia.
Qed.

(** The first two cells of each line tell the lines apart. *)
Lemma line_cell_inj (lines : list (list Z)) (i j : nat) (line : list Z) (c : Z) :
  lines !! i = Some line → lines !! j = Some line →
  line_cell lines (Z.of_nat i) c = line_cell lines (Z.of_nat j) c.
Proof.
  intros Hi Hj. unfold line_cell. rewrite !Nat2Z.id. by rewrite Hi, Hj.
Qed.

(** X2. For every N >= 2 the 2N+2 winning lines are pairwise distinct:
    no line is generated twice. *)
Theorem generate_winning_lines_NoDup (N : Z) :
  2 <= N → NoDup (generate_winning_lines N).
Proof.
  intros HN. apply NoDup_alt. intros i j line Hi Hj.
  pose proof (line_cell_inj _ i j line 0 Hi Hj) as H0.
  pose proof (line_cell_inj _ i j line 1 Hi Hj) as H1.
  assert (Hlen : Z.of_nat (length (generate_winning_lines N)) = 2 * N + 2)
    by (apply generate_winning_lines_length; lia).
  apply lookup_lt_Some in Hi, Hj.
  assert (Hsig : ∀ k : nat, (k < length (generate_winning_lines N))%nat →
            ∃ a b, line_cell (generate_winning_lines N) (Z.of_nat k) 0 = Some a
                   ∧ line_cell (generate_winning_lines N) (Z.of_nat k) 1 = Some b
                   ∧ ((Z.of_nat k < N ∧ a = Z.of_nat k * N ∧ b = Z.of_nat k * N + 1)
                      ∨ (N <= Z.of_nat k < 2 * N
                         ∧ a = Z.of_nat k - N ∧ b = Z.of_nat k - N + N)
                      ∨ (Z.of_nat k = 2 * N ∧ a = 0 ∧ b = N + 1)
                      ∨ (Z.of_nat k = 2 * N + 1 ∧ a = N - 1 ∧ b = 2 * N - 2))).
  { intros k Hk.
    destruct (decide (Z.of_nat k < N)) as [Hrow|Hnrow].
    - exists (Z.of_nat k * N), (Z.of_nat k * N + 1). split_and!.
      + rewrite line_cell_rows by lia. f_equal. lia.
      + by rewrite line_cell_rows by lia.
      + left. lia.
    - destruct (decide (Z.of_nat k < 2 * N)) as [Hcol|Hncol].
      + exists (Z.of_nat k - N), (Z.of_nat k - N + N). split_and!.
        * replace (Z.of_nat k) with (N + (Z.of_nat k - N)) at 1 by lia.
          rewrite line_cell_cols by lia. f_equal. lia.
        * replace (Z.of_nat k) with (N + (Z.of_nat k - N)) at 1 by lia.
          rewrite line_cell_cols by lia. f_equal. lia.
        * right. left. lia.
      + destruct (decide (Z.of_nat k = 2 * N)) as [Hd|Hnd].
        * exists 0, (N + 1). rewrite Hd. split_and!.
          -- rewrite (proj1 (line_cell_diags N 0 ltac:(lia))). f_equal.
          -- rewrite (proj1 (line_cell_diags N 1 ltac:(lia))). f_equal. lia.
          -- right. right. left. lia.
        * exists (N - 1), (2 * N - 2).
          replace (Z.of_nat k) with (2 * N + 1) by lia. split_and!.
          -- rewrite (proj2 (line_cell_diags N 0 ltac:(lia))). f_equal. lia.
          -- rewrite (proj2 (line_cell_diags N 1 ltac:(lia))). f_equal. lia.
          -- right. right. right. lia. }
  destruct (Hsig i Hi) as (a & b & Ha & Hb & Hcase).
  destruct (Hsig j Hj) as (a' & b' & Ha' & Hb' & Hcase').
  assert (a = a') by congruence. assert (b = b') by congruence.
  destruct Hcase as [?|[?|[?|?]]], Hcase' as [?|[?|[?|?]]]; nia.
Qed.

Lemma generate_winning_lines_NoDup_witness :
  2 <= BOARD_SIZE ∧ NoDup WINNING_LINES.
Proof.
  assert (H : 2 <= BOARD_SIZE) by (unfold BOARD_SIZE; lia).
  split; [exact H|]. exact (generate_winning_lines_NoDup BOARD_SIZE H).
Defined.

(** ** Win detection on boards of other lengths *)

Lemma WINNING_LINES_scannable_ge (cells : list string) :
  TOTAL_CELLS <= Z.of_nat (length cells) → Forall (scannable cells) WINNING_LINES.
Proof.
  intros Hlen. unfold scannable.
  unfold WINNING_LINES. unfold TOTAL_CELLS, BOARD_SIZE in Hlen.
  repeat first [ apply List.Forall_nil | apply List.Forall_cons
               | split | discriminate | lia ].
Qed.

Lemma all_equal_ext (cells cells' : list string) (first : string) (idxs : list Z) :
  Forall (fun idx => py_getitem cells idx = py_getitem cells' idx) idxs →
  all_equal cells first idxs = all_equal cells' first idxs.
Proof.
  induction 1 as [|idx rest Hidx _ IH]; [done|].
  cbn [all_equal]. rewrite Hidx.
  destruct (py_getitem cells' idx) as [c|e]; cbn [mbind result_bind]; [|done].
  by rewrite IH.
Qed.

Lemma check_lines_ext (cells cells' : list string) (lines : list (list Z)) :
  Forall (Forall (fun idx => py_getitem cells idx = py_getitem cells' idx)) lines →
  check_lines cells lines = check_lines cells' lines.
Proof.
  induction 1 as [|line rest Hline _ IH]; [done|].
  destruct line as [|i0 tl]; [done|].
  assert (Hhead : py_getitem (i0 :: tl) 0 = Ok i0) by (by apply py_getitem_nonneg).
  cbn [check_lines tail]. rewrite Hhead. cbn [mbind result_bind].
  apply Forall_cons in Hline as [Hi0 Htl]. rewrite Hi0.
  destruct (py_getitem cells' i0) as [first|e]; cbn [mbind result_bind]; [|done].
  rewrite (all_equal_ext cells cells' first tl Htl). by rewrite IH.
Qed.

Lemma py_getitem_take {A} (l : list A) (n : nat) (i : Z) :
  (n <= length l)%nat → 0 <= i < Z.of_nat n →
  py_getitem (take n l) i = py_getitem l i.
Proof.
  intros Hn Hi. unfold py_getitem.
  rewrite !py_index_nonneg by (rewrite ?length_take; lia).
  cbn [mbind result_bind]. by rewrite lookup_take_lt by lia.
Qed.

Lemma all_equal_exn (cells : list string) (first : string) (idxs : list Z) (e : exn) :
  all_equal cells first idxs = Raise e → e = IndexError.
Proof.
  induction idxs as [|idx rest IH]; [done|]. cbn [all_equal].
  destruct (py_getitem cells idx) as [c|e'] eqn:Hc; cbn [mbind result_bind].
  - destruct (String.eqb c first); [exact IH|done].
  - intros [= <-]. by apply py_getitem_exn in Hc.
Qed.

(** An index past the end is never compared equal. *)
Lemma all_equal_out_of_range (cells : list string) (first : string) (idxs : list Z) :
  Exists (fun idx => Z.of_nat (length cells) <= idx) idxs →
  all_equal cells first idxs ≠ Ok true.
Proof.
  induction idxs as [|idx rest IH]; intros Hex; [by apply Exists_nil in Hex|].
  cbn [all_equal]. apply Exists_cons in Hex as [Hidx|Hrest].
  - unfold py_getitem.
    assert (Hr : py_index (length cells) idx = Raise IndexError)
      by (apply py_index_raise; lia).
    by rewrite Hr.
  - destruct (py_getitem cells idx) as [c|e]; cbn [mbind result_bind]; [|done].
    destruct (String.eqb c first); [by apply IH|done].
Qed.

Lemma py_getitem_past_end {A} (l : list A) (i : Z) :
  Z.of_nat (length l) <= i → py_getitem l i = Raise IndexError.
Proof.
  intros Hi. unfold py_getitem.
  assert (Hr : py_index (length l) i = Raise IndexError)
    by (apply py_index_raise; lia).
  by rewrite Hr.
Qed.

(** X3. On a board with 25 cells or more, [check_winner] and
    [evaluate_state] return without an exception, and the winner found is
    the one found on the first 25 cells: cells past the board are not
    looked at.  On a board with fewer than 5 cells [check_winner] raises
    [IndexError]. *)
Theorem check_winner_board_length (st : GameState) :
  (TOTAL_CELLS <= Z.of_nat (length (board st)) →
   (∃ w, check_winner (board st) = Ok w
         ∧ check_winner (take 25 (board st)) = Ok w)
   ∧ ∃ o, evaluate_state st = Ok o)
  ∧ (Z.of_nat (length (board st)) < BOARD_SIZE →
     check_winner (board st) = Raise IndexError).
Proof.
  split.
  - intros Hlen.
    pose proof (WINNING_LINES_scannable_ge _ Hlen) as Hsc.
    unfold TOTAL_CELLS, BOARD_SIZE in Hlen.
    assert (Htake : check_winner (take 25 (board st)) = check_winner (board st)).
    { apply check_lines_ext. unfold WINNING_LINES.
      repeat first [ apply List.Forall_nil | apply List.Forall_cons
                   | apply py_getitem_take; lia ]. }
    destruct (check_winner (board st)) as [w|e] eqn:Hw.
    + split; [by exists w|]. unfold evaluate_state. rewrite Hw.
      cbn [mbind result_bind].
      destruct (py_truthy w); [by eexists|].
      destruct (is_draw (board st)); by eexists.
    + by destruct (check_lines_no_raise _ _ e Hsc).
  - unfold BOARD_SIZE. intros Hlen.
    unfold check_winner, WINNING_LINES. cbn [check_lines tail].
    assert (H0 : py_getitem [0; 1; 2; 3; 4] 0 = Ok 0) by reflexivity.
    assert (H5 : py_getitem [5; 6; 7; 8; 9] 0 = Ok 5) by reflexivity.
    rewrite H0, H5. cbn [mbind result_bind].
    rewrite (py_getitem_past_end (board st) 5) by lia.
    destruct (py_getitem (board st) 0) as [first|e] eqn:Hfirst;
      cbn [mbind result_bind]; [|by rewrite (py_getitem_exn _ _ _ Hfirst)].
    destruct (negb (first =? " ")%string); cbn [mbind result_bind]; [|done].
    pose proof (all_equal_out_of_range (board st) first [1; 2; 3; 4]) as Hne.
    destruct (all_equal (board st) first [1; 2; 3; 4]) as [[|]|e] eqn:Hall;
      cbn [mbind result_bind]; [|done|by rewrite (all_equal_exn _ _ _ _ Hall)].
    exfalso. apply Hne; [|done].
    apply Exists_cons_tl, Exists_cons_tl, Exists_cons_tl, Exists_cons_hd. lia.
Qed.

Lemma check_winner_board_length_witness :
  (TOTAL_CELLS <= Z.of_nat (length (board st_draw ++ ["X"]))
   ∧ ∃ o, evaluate_state {| board := board st_draw ++ ["X"]; active := "X" |} = Ok o)
  ∧ (Z.of_nat (length ["X"; "X"; "X"; "X"]) < BOARD_SIZE
     ∧ check_winner ["X"; "X"; "X"; "X"] = Raise IndexError).
Proof.
  assert (H : TOTAL_CELLS
              <= Z.of_nat (length (board {| board := board st_draw ++ ["X"];
                                            active := "X" |})))
    by (vm_compute; discriminate).
  assert (H' : Z.of_nat (length (board {| board := ["X"; "X"; "X"; "X"];
                                          active := "X" |})) < BOARD_SIZE)
    by reflexivity.
  split; (split; [first [exact H | exact H']|]).
  - exact (proj2 (proj1 (check_winner_board_length _) H)).
  - exact (proj2 (check_winner_board_length _) H').
Defined.

(** ** Who can win *)

Lemma py_getitem_insert (cells : list string) (k : nat) (a : string) (idx : Z) :
  0 <= idx → (k < length cells)%nat →
  py_getitem (<[k := a]> cells) idx
  = if decide (Z.to_nat idx = k) then Ok a else py_getitem cells idx.
Proof.
  intros Hidx Hk. unfold py_getitem. rewrite length_insert.
  destruct (py_index (length cells) idx) as [n|e] eqn:Hn; cbn [mbind result_bind].
  - assert (n = Z.to_nat idx) as ->.
    { unfold py_index in Hn. repeat case_decide; simplify_eq; [done|lia]. }
    case_decide as Heq.
    + subst k. by rewrite list_lookup_insert_eq.
    + by rewrite list_lookup_insert_ne.
  - pose proof (py_index_exn _ _ _ Hn) as ->.
    apply py_index_raise in Hn. case_decide; [lia|done].
Qed.

(** A line won after cell [k] was written either runs through [k], and is
    then won by the mark written, or was won before. *)
Lemma line_won_insert (cells : list string) (k : nat) (a : string)
    (line : list Z) (m : string) :
  (k < length cells)%nat →
  Forall (fun idx => 0 <= idx) line →
  line_won (<[k := a]> cells) line m →
  m = a ∨ line_won cells line m.
Proof.
  intros Hk Hpos (Hm & Hne & Hall).
  destruct (decide (Exists (fun idx => Z.to_nat idx = k) line)) as [Hthrough|Hnot].
  - left. apply Exists_exists in Hthrough as (idx & Hin & Hidx).
    rewrite Forall_forall in Hall, Hpos.
    pose proof (Hall idx Hin) as Hget.
    rewrite py_getitem_insert in Hget by auto.
    rewrite decide_True in Hget by done. congruence.
  - right. split_and!; [done|done|].
    apply Forall_Exists_neg in Hnot.
    rewrite Forall_forall in Hall, Hpos, Hnot |- *. intros idx Hin.
    pose proof (Hall idx Hin) as Hget.
    rewrite py_getitem_insert in Hget by auto.
    by rewrite decide_False in Hget by auto.
Qed.

Lemma WINNING_LINES_nonneg :
  Forall (Forall (fun idx => 0 <= idx)) WINNING_LINES.
Proof.
  unfold WINNING_LINES.
  repeat first [ apply List.Forall_nil | apply List.Forall_cons | lia ].
Qed.

Lemma only_the_mover_wins_aux (st : GameState) (slot : Z) :
  Z.of_nat (length (board st)) = TOTAL_CELLS →
  0 <= slot < TOTAL_CELLS →
  check_winner (board st) = Ok None →
  (∀ line m, line ∈ WINNING_LINES →
     line_won (<[Z.to_nat slot := active st]> (board st)) line m → m = active st)
  ∧ (check_winner (<[Z.to_nat slot := active st]> (board st)) = Ok None
     ∨ check_winner (<[Z.to_nat slot := active st]> (board st))
       = Ok (Some (active st))).
Proof.
  intros Hlen Hslot Hnone.
  pose proof (WINNING_LINES_scannable (board st) Hlen) as Hsc.
  pose proof (check_lines_None_inv _ _ Hsc Hnone) as Hno.
  assert (Hwon : ∀ line m, line ∈ WINNING_LINES →
            line_won (<[Z.to_nat slot := active st]> (board st)) line m →
            m = active st).
  { intros line m Hin Hw.
    pose proof WINNING_LINES_nonneg as Hpos. rewrite Forall_forall in Hpos.
    apply line_won_insert in Hw as [->|Hw]; [done| |lia|by apply Hpos].
    by destruct (Hno line m Hin). }
  split; [exact Hwon|].
  assert (Hsc' : Forall (scannable (<[Z.to_nat slot := active st]> (board st)))
                        WINNING_LINES).
  { apply WINNING_LINES_scannable. by rewrite length_insert. }
  unfold check_winner.
  destruct (check_lines _ WINNING_LINES) as [[w|]|e] eqn:Hres.
  - right. apply check_lines_Some_inv in Hres as (pre & l & post & Heq & _ & Hw);
      [|done].
    rewrite (Hwon l w); [done| |done]. rewrite Heq. apply elem_of_app. right. by left.
  - by left.
  - by destruct (check_lines_no_raise _ _ e Hsc').
Qed.

(** X4. Only the player who moves can win by the move: on a board of 25
    cells without a won line, after [make_move] at a slot of [0, 25),
    every won line is won by the mark that was placed, so [check_winner]
    returns that mark or [None]. *)
Theorem only_the_mover_wins (st st' : GameState) (slot : Z) :
  Z.of_nat (length (board st)) = TOTAL_CELLS →
  0 <= slot < TOTAL_CELLS →
  check_winner (board st) = Ok None →
  make_move st slot = Ok st' →
  (∀ line m, line ∈ WINNING_LINES → line_won (board st') line m → m = active st)
  ∧ (check_winner (board st') = Ok None
     ∨ check_winner (board st') = Ok (Some (active st))).
Proof.
  intros Hlen Hslot Hnone Hmv.
  assert (Hk : py_index (length (board st)) slot = Ok (Z.to_nat slot))
    by (apply py_index_nonneg; lia).
  rewrite (make_move_at st slot _ Hk) in Hmv. injection Hmv as <-. cbn [board].
  by apply only_the_mover_wins_aux.
Qed.

Lemma only_the_mover_wins_witness :
  Z.of_nat (length (board st_two_moves)) = TOTAL_CELLS
  ∧ 0 <= 1 < TOTAL_CELLS
  ∧ check_winner (board st_two_moves) = Ok None
  ∧ ∃ st', make_move st_two_moves 1 = Ok st'
      ∧ (check_winner (board st') = Ok None
         ∨ check_winner (board st') = Ok (Some (active st_two_moves))).
Proof.
  assert (H1 : Z.of_nat (length (board st_two_moves)) = TOTAL_CELLS) by reflexivity.
  assert (H2 : 0 <= 1 < TOTAL_CELLS) by (unfold TOTAL_CELLS, BOARD_SIZE; lia).
  assert (H3 : check_winner (board st_two_moves) = Ok None) by reflexivity.
  split; [exact H1|]. split; [exact H2|]. split; [exact H3|].
  eexists. split; [reflexivity|].
  exact (proj2 (only_the_mover_wins st_two_moves _ 1 H1 H2 H3 eq_refl)).
Defined.

(** ** What validated play keeps true *)

Lemma count_mark_insert (b : list string) (k : nat) (a m : string) :
  b !! k = Some Empty → m ≠ Empty →
  count_mark m (<[k := a]> b)
  = (count_mark m b + (if decide (a = m) then 1 else 0))%nat.
Proof.
  unfold count_mark. revert k. induction b as [|c b IH]; intros k Hk Hm; [done|].
  destruct k as [|k]; simpl in Hk |- *.
  - injection Hk as ->. rewrite (filter_cons_False _ Empty) by (intros H; by apply Hm).
    case_decide.
    + rewrite filter_cons_True by done. simpl. lia.
    + rewrite filter_cons_False by done. lia.
  - destruct (decide (c = m)).
    + rewrite !filter_cons_True by done. simpl. by rewrite IH.
    + rewrite !filter_cons_False by done. by rewrite IH.
Qed.

Lemma marked_lt_length (b : list string) :
  is_draw b = false → (marked b < length b)%nat.
Proof.
  unfold marked, is_draw. induction b as [|c b IH]; [done|].
  cbn [forallb]. pose proof (length_filter (fun c => c ≠ Empty) b) as Hle.
  destruct (String.eqb_spec c " ") as [->|Hc]; cbn [negb andb]; intros Hd.
  - rewrite filter_cons_False by (intros H; by apply H). simpl. lia.
  - rewrite filter_cons_True by done. simpl. apply IH in Hd. lia.
Qed.

Lemma marked_le_length (b : list string) : (marked b <= length b)%nat.
Proof. apply length_filter. Qed.

(** On a board of the data model, "in progress" means: no line is won and
    some cell is Empty. *)
Lemma evaluate_state_None_inv (st : GameState) :
  valid_board (board st) → evaluate_state st = Ok None →
  check_winner (board st) = Ok None ∧ is_draw (board st) = false.
Proof.
  intros [Hlen Hcells] Hev.
  pose proof (WINNING_LINES_scannable _ Hlen) as Hsc.
  unfold evaluate_state in Hev.
  destruct (check_winner (board st)) as [[w|]|e] eqn:Hw; cbn [mbind result_bind] in Hev.
  - apply check_lines_Some_inv in Hw as (pre & l & post & _ & _ & Hwon); [|done].
    apply (line_won_is_mark _ _ _ Hcells), is_mark_truthy in Hwon.
    rewrite Hwon in Hev. done.
  - cbn [py_truthy] in Hev. by destruct (is_draw (board st)).
  - done.
Qed.

(** The outcome on a board of the data model is [None], ["draw"] or a
    mark, never an exception. *)
Lemma evaluate_state_valid (st : GameState) :
  valid_board (board st) →
  ∃ o, evaluate_state st = Ok o
       ∧ (o = None ∨ o = Some "draw" ∨ o = Some "X" ∨ o = Some "O").
Proof.
  intros [Hlen Hcells].
  pose proof (WINNING_LINES_scannable _ Hlen) as Hsc.
  unfold evaluate_state.
  destruct (check_winner (board st)) as [[w|]|e] eqn:Hw; cbn [mbind result_bind].
  - apply check_lines_Some_inv in Hw as (pre & l & post & _ & _ & Hwon); [|done].
    pose proof (line_won_is_mark _ _ _ Hcells Hwon) as Hm.
    rewrite (is_mark_truthy _ Hm). exists (Some w). split; [done|].
    destruct Hm as [->| ->]; auto.
  - cbn [py_truthy]. destruct (is_draw (board st)); eexists; eauto.
  - by destruct (check_lines_no_raise _ _ e Hsc).
Qed.

Lemma game_invariant_new : game_invariant (new_game None).
Proof.
  unfold game_invariant. split_and!.
  - split; [reflexivity|]. apply Forall_replicate. by left.
  - by left.
  - reflexivity.
  - intros line m Hin Hw. exfalso.
    assert (Hsc : Forall (scannable (board (new_game None))) WINNING_LINES)
      by (by apply WINNING_LINES_scannable).
    assert (Hnone : check_lines (board (new_game None)) WINNING_LINES = Ok None)
      by reflexivity.
    by apply (check_lines_None_inv _ _ Hsc Hnone line m).
Qed.

Lemma game_invariant_step (st : GameState) (slot : Z) :
  game_invariant st →
  evaluate_state st = Ok None →
  0 <= slot < TOTAL_CELLS →
  py_getitem (board st) slot = Ok Empty →
  ∃ st', make_move st slot = Ok st'
    ∧ game_invariant st'
    ∧ marked (board st') = S (marked (board st)).
Proof.
  intros (Hvalid & Hact & Hbal & _) Hev Hslot Hcell.
  destruct (evaluate_state_None_inv st Hvalid Hev) as [Hnone _].
  destruct Hvalid as [Hlen Hcells].
  assert (Hk : py_index (length (board st)) slot = Ok (Z.to_nat slot))
    by (apply py_index_nonneg; lia).
  pose proof (make_move_at st slot _ Hk) as Hmv.
  assert (Hlook : board st !! Z.to_nat slot = Some Empty)
    by (apply py_getitem_Ok_nonneg; [lia|done]).
  eexists. split; [exact Hmv|].
  destruct (next_player_spec (active st)) as (Hxo & Hnx & Hox & _ & Hmark).
  assert (Hback : next_player (next_player (active st)) = active st).
  { destruct Hact as [Hx|Ho]; rewrite ?Hx, ?Ho; reflexivity. }
  split; [|cbn [board]; apply marked_insert; [done|by destruct Hact as [->| ->]]].
  unfold game_invariant. cbn [board active]. split_and!.
  - split; [by rewrite length_insert|].
    apply Forall_insert; [done|]. by right.
  - exact Hmark.
  - rewrite !count_mark_insert by done. rewrite Hbal.
    destruct Hact as [Hx|Ho]; rewrite ?Hx, ?Ho; reflexivity.
  - rewrite Hback. intros line m Hin Hw.
    apply (proj1 (only_the_mover_wins_aux st slot Hlen Hslot Hnone) line m Hin Hw).
Qed.

(** X5. A fresh game satisfies [game_invariant], and a validated move
    (game in progress, slot in [0, 25), cell Empty) leads to a state that
    satisfies it again, with one more marked cell: the board keeps 25
    cells, each Empty, X or O; the mark to move is X or O; X has as many
    cells as O, one more when O is to move; every won line is won by the
    player who moved last. *)
Theorem validated_play_invariant :
  game_invariant (new_game None)
  ∧ ∀ st slot,
      game_invariant st →
      evaluate_state st = Ok None →
      0 <= slot < TOTAL_CELLS →
      py_getitem (board st) slot = Ok Empty →
      ∃ st', make_move st slot = Ok st'
        ∧ game_invariant st'
        ∧ marked (board st') = S (marked (board st)).
Proof.
  split; [exact game_invariant_new|]. intros st slot. apply game_invariant_step.
Qed.

Lemma validated_play_invariant_witness :
  game_invariant st_fresh
  ∧ evaluate_state st_fresh = Ok None
  ∧ 0 <= 24 < TOTAL_CELLS
  ∧ py_getitem (board st_fresh) 24 = Ok Empty
  ∧ ∃ st', make_move st_fresh 24 = Ok st' ∧ game_invariant st'.
Proof.
  destruct validated_play_invariant as [H0 Hstep].
  assert (H1 : evaluate_state st_fresh = Ok None) by reflexivity.
  assert (H2 : 0 <= 24 < TOTAL_CELLS) by (unfold TOTAL_CELLS, BOARD_SIZE; lia).
  assert (H3 : py_getitem (board st_fresh) 24 = Ok Empty) by reflexivity.
  split; [exact H0|]. split; [exact H1|]. split; [exact H2|]. split; [exact H3|].
  destruct (Hstep st_fresh 24 H0 H1 H2 H3) as (st' & Hmv & Hinv & _).
  exists st'. split; [exact Hmv|exact Hinv].
Defined.

(** ** The terminal prompt *)

Lemma get_move_cons (player : string) (cells : list string)
    (raw : string) (inputs : list string) :
  (isdigit raw = false
   ∨ (isdigit raw = true
      ∧ Z.of_nat (String.length raw) <= INT_MAX_STR_DIGITS
      ∧ (int_of_digits raw - 1 < 0 ∨ int_of_digits raw - 1 >= TOTAL_CELLS))
   ∨ (isdigit raw = true
      ∧ Z.of_nat (String.length raw) <= INT_MAX_STR_DIGITS
      ∧ 0 <= int_of_digits raw - 1 < TOTAL_CELLS
      ∧ ∃ c, py_getitem cells (int_of_digits raw - 1) = Ok c ∧ c ≠ Empty)) →
  ∃ msg, get_move player cells (raw :: inputs)
         = (msg :: (get_move player cells inputs).1, (get_move player cells inputs).2)
    ∧ get_move_rest cells (raw :: inputs) = get_move_rest cells inputs.
Proof.
  intros [Hd|[(Hd & Hshort & Hout)|(Hd & Hshort & Hin & c & Hc & Hne)]].
  - exists MSG_NOT_A_NUMBER. cbn [get_move get_move_rest]. rewrite Hd. cbn [negb].
    by destruct (get_move player cells inputs).
  - exists MSG_OUTSIDE. split; [by apply get_move_outside|].
    cbn [get_move_rest]. rewrite Hd, (py_int_Ok raw Hshort). cbn [negb].
    rewrite bool_decide_eq_false_2; [done|].
    unfold range. rewrite elem_of_seqZ. lia.
  - exists MSG_TAKEN. split; [by apply (get_move_taken _ _ _ _ c)|].
    cbn [get_move_rest]. rewrite Hd, (py_int_Ok raw Hshort). cbn [negb].
    rewrite bool_decide_eq_true_2 by (unfold range; rewrite elem_of_seqZ; lia).
    cbn [negb]. rewrite Hc. by destruct (String.eqb_spec c " ").
Qed.

(** The ways in which [get_move] can treat a line: three rejections, the
    acceptance and the two exceptions. *)
Lemma get_move_line (cells : list string) (raw : string) :
  (isdigit raw = false
   ∨ (isdigit raw = true
      ∧ Z.of_nat (String.length raw) <= INT_MAX_STR_DIGITS
      ∧ (int_of_digits raw - 1 < 0 ∨ int_of_digits raw - 1 >= TOTAL_CELLS))
   ∨ (isdigit raw = true
      ∧ Z.of_nat (String.length raw) <= INT_MAX_STR_DIGITS
      ∧ 0 <= int_of_digits raw - 1 < TOTAL_CELLS
      ∧ ∃ c, py_getitem cells (int_of_digits raw - 1) = Ok c ∧ c ≠ Empty))
  ∨ (isdigit raw = true
     ∧ Z.of_nat (String.length raw) <= INT_MAX_STR_DIGITS
     ∧ 0 <= int_of_digits raw - 1 < TOTAL_CELLS
     ∧ py_getitem cells (int_of_digits raw - 1) = Ok Empty)
  ∨ (isdigit raw = true
     ∧ Z.of_nat (String.length raw) <= INT_MAX_STR_DIGITS
     ∧ 0 <= int_of_digits raw - 1 < TOTAL_CELLS
     ∧ py_getitem cells (int_of_digits raw - 1) = Raise IndexError)
  ∨ (isdigit raw = true
     ∧ INT_MAX_STR_DIGITS < Z.of_nat (String.length raw)).
Proof.
  destruct (isdigit raw); [|by left; left].
  destruct (decide (Z.of_nat (String.length raw) <= INT_MAX_STR_DIGITS))
    as [Hshort|Hlong]; [|right; right; right; split; [done|lia]].
  destruct (decide (0 <= int_of_digits raw - 1 < TOTAL_CELLS)) as [Hin|Hout];
    [|left; right; left; split_and!; [done|done|lia]].
  destruct (py_getitem cells (int_of_digits raw - 1)) as [c|e] eqn:Hc.
  - destruct (decide (c = Empty)) as [->|Hne].
    + right. left. done.
    + left. right. right. split_and!; [done|done|lia|lia|]. by exists c.
  - pose proof (py_getitem_exn _ _ _ Hc) as ->. right. right. left. done.
Qed.

Lemma get_move_accept (player : string) (cells : list string)
    (raw : string) (inputs : list string) :
  isdigit raw = true →
  Z.of_nat (String.length raw) <= INT_MAX_STR_DIGITS →
  0 <= int_of_digits raw - 1 < TOTAL_CELLS →
  py_getitem cells (int_of_digits raw - 1) = Ok Empty →
  get_move player cells (raw :: inputs) = ([], Ok (Some (int_of_digits raw - 1)))
  ∧ get_move_rest cells (raw :: inputs) = inputs.
Proof.
  intros Hd Hshort Hin Hc. cbn [get_move get_move_rest].
  rewrite Hd, (py_int_Ok raw Hshort). cbn [negb].
  rewrite bool_decide_eq_true_2 by (unfold range; rewrite elem_of_seqZ; lia).
  cbn [negb]. by rewrite Hc.
Qed.

Lemma get_move_raise (player : string) (cells : list string)
    (raw : string) (inputs : list string) :
  isdigit raw = true →
  Z.of_nat (String.length raw) <= INT_MAX_STR_DIGITS →
  0 <= int_of_digits raw - 1 < TOTAL_CELLS →
  py_getitem cells (int_of_digits raw - 1) = Raise IndexError →
  get_move player cells (raw :: inputs) = ([], Raise IndexError)
  ∧ get_move_rest cells (raw :: inputs) = inputs.
Proof.
  intros Hd Hshort Hin Hc. cbn [get_move get_move_rest].
  rewrite Hd, (py_int_Ok raw Hshort). cbn [negb].
  rewrite bool_decide_eq_true_2 by (unfold range; rewrite elem_of_seqZ; lia).
  cbn [negb]. by rewrite Hc.
Qed.

Lemma get_move_long (player : string) (cells : list string)
    (raw : string) (inputs : list string) :
  isdigit raw = true →
  INT_MAX_STR_DIGITS < Z.of_nat (String.length raw) →
  get_move player cells (raw :: inputs) = ([], Raise ValueError)
  ∧ get_move_rest cells (raw :: inputs) = inputs.
Proof.
  intros Hd Hlong. cbn [get_move get_move_rest].
  by rewrite Hd, (py_int_Raise raw Hlong).
Qed.

(** What [get_move] returns, line by line of the console. *)
Lemma get_move_result (player : string) (cells : list string) (inputs : list string) :
  let out := (get_move player cells inputs).1 in
  let rest := get_move_rest cells inputs in
  match (get_move player cells inputs).2 with
  | Ok (Some slot) =>
      0 <= slot < TOTAL_CELLS ∧ py_getitem cells slot = Ok Empty
      ∧ ∃ raw, inputs = take (length out) inputs ++ raw :: rest
               ∧ isdigit raw = true ∧ slot = int_of_digits raw - 1
  | Ok None => length out = length inputs ∧ rest = []
  | Raise e =>
      ∃ raw, inputs = take (length out) inputs ++ raw :: rest
             ∧ isdigit raw = true
             ∧ ((e = IndexError ∧ Z.of_nat (length cells) < TOTAL_CELLS)
                ∨ (e = ValueError
                   ∧ INT_MAX_STR_DIGITS < Z.of_nat (String.length raw)))
  end.
Proof.
  cbv zeta. induction inputs as [|raw inputs IH]; [done|].
  destruct (get_move_line cells raw)
    as [Hrej|[(Hd & Hshort & Hin & Hc)|[(Hd & Hshort & Hin & Hc)|(Hd & Hlong)]]].
  - destruct (get_move_cons player cells raw inputs Hrej) as (msg & -> & ->).
    cbn [fst snd] in IH |- *.
    destruct (get_move player cells inputs).2 as [[slot|]|e].
    + destruct IH as (? & ? & raw' & Heq & ? & ?).
      split; [done|]. split; [done|].
      exists raw'. cbn [length take app]. by rewrite <- Heq.
    + destruct IH as [Hl Hr]. split; [|done]. cbn [length]. by rewrite Hl.
    + destruct IH as (raw' & Heq & ? & ?).
      exists raw'. cbn [length take app]. by rewrite <- Heq.
  - destruct (get_move_accept player cells raw inputs Hd Hshort Hin Hc) as [-> ->].
    cbn [fst snd length take app]. split_and!; [lia|lia|done|]. by exists raw.
  - destruct (get_move_raise player cells raw inputs Hd Hshort Hin Hc) as [-> ->].
    cbn [fst snd length take app]. exists raw. split_and!; [done|done|]. left.
    split; [done|]. unfold py_getitem in Hc.
    destruct (py_index (length cells) (int_of_digits raw - 1)) as [k|e] eqn:Hk.
    + cbn [mbind result_bind] in Hc. apply py_index_lt in Hk.
      destruct (lookup_lt_is_Some_2 cells k Hk) as [x Hx]. by rewrite Hx in Hc.
    + pose proof (py_index_exn _ _ _ Hk) as ->. apply py_index_raise in Hk. lia.
  - destruct (get_move_long player cells raw inputs Hd Hlong) as [-> ->].
    cbn [fst snd length take app]. exists raw. split_and!; [done|done|]. by right.
Qed.




(** The labels 1 .. 25 are short digit strings and read back as
    themselves. *)
Lemma labels_read_back :
  ∀ idx, 0 <= idx < 25 →
    isdigit (str (idx + 1)) = true
    ∧ int_of_digits (str (idx + 1)) - 1 = idx
    ∧ Z.of_nat (String.length (str (idx + 1))) <= INT_MAX_STR_DIGITS.
Proof.
  apply (Forall_seqZ (fun idx => isdigit (str (idx + 1)) = true
                                 ∧ int_of_digits (str (idx + 1)) - 1 = idx
                                 ∧ Z.of_nat (String.length (str (idx + 1)))
                                   <= INT_MAX_STR_DIGITS) 0 25).
  unfold seqZ. cbn [Z.to_nat Pos.to_nat Pos.iter_op Nat.add seq fmap list_fmap].
  repeat (apply List.Forall_cons;
          [split; [vm_compute; reflexivity|];
           split; [vm_compute; reflexivity|vm_compute; discriminate]|]).
  apply List.Forall_nil.
Qed.

(** X7. The number shown in an Empty square selects that square: for an
    Empty cell [idx] of [0, 25), [render_board]'s [display_value] shows
    [str(idx + 1)] (centred), and [get_move], given that text, returns
    [idx] without a message. *)
Theorem label_selects_cell (player : string) (cells : list string)
    (idx : Z) (inputs : list string) :
  0 <= idx < TOTAL_CELLS →
  py_getitem cells idx = Ok Empty →
  display_value cells idx = Ok (format_center cell_width (str (idx + 1)))
  ∧ get_move player cells (str (idx + 1) :: inputs) = ([], Ok (Some idx))
  ∧ get_move_rest cells (str (idx + 1) :: inputs) = inputs.
Proof.
  intros Hidx Hc. split.
  - unfold display_value. by rewrite Hc.
  - destruct (labels_read_back idx Hidx) as (Hd & Hint & Hshort).
    pose proof (get_move_accept player cells (str (idx + 1)) inputs Hd Hshort) as Hacc.
    rewrite Hint in Hacc. by apply Hacc.
Qed.

Lemma label_selects_cell_witness :
  0 <= 11 < TOTAL_CELLS
  ∧ py_getitem (board st_two_moves) 11 = Ok Empty
  ∧ display_value (board st_two_moves) 11 = Ok "12"
  ∧ get_move "X" (board st_two_moves) ["12"] = ([], Ok (Some 11)).
Proof.
  assert (H1 : 0 <= 11 < TOTAL_CELLS) by (unfold TOTAL_CELLS, BOARD_SIZE; lia).
  assert (H2 : py_getitem (board st_two_moves) 11 = Ok Empty) by reflexivity.
  split; [exact H1|]. split; [exact H2|].
  destruct (label_selects_cell "X" (board st_two_moves) 11 [] H1 H2) as (Hd & Hg & _).
  split; [exact Hd|exact Hg].
Defined.

(** ** Rendering *)

Lemma mapM_result_cons {A B} (f : A → result B) (x : A) (l : list A) :
  mapM f (x :: l) = y ← f x; k ← mapM f l; Ok (y :: k).
Proof. reflexivity. Qed.

Lemma mapM_result_Ok {A B} (f : A → result B) (l : list A) (k : list B) :
  Forall2 (fun x y => f x = Ok y) l k → mapM f l = Ok k.
Proof.
  induction 1 as [|x y l k Hxy _ IH]; [done|].
  rewrite mapM_result_cons, Hxy. cbn [mbind result_bind]. by rewrite IH.
Qed.

Lemma mapM_result_exn {A B} (f : A → result B) (l : list A) (e : exn) :
  (∀ x e', f x = Raise e' → e' = IndexError) →
  mapM f l = Raise e → e = IndexError.
Proof.
  intros Hf. induction l as [|x l IH]; [done|]. rewrite mapM_result_cons.
  destruct (f x) as [y|e'] eqn:Hx; cbn [mbind result_bind].
  - destruct (mapM f l) as [k|e'']; cbn [mbind result_bind]; [done|].
    intros [= <-]. by apply IH.
  - intros [= <-]. by apply (Hf x).
Qed.

Lemma mapM_result_Raise {A B} (f : A → result B) (l : list A) :
  (∀ x e, f x = Raise e → e = IndexError) →
  Exists (fun x => f x = Raise IndexError) l → mapM f l = Raise IndexError.
Proof.
  intros Hf. induction 1 as [x l Hx|x l _ IH]; rewrite mapM_result_cons.
  - by rewrite Hx.
  - destruct (f x) as [y|e] eqn:Hx; cbn [mbind result_bind].
    + by rewrite IH.
    + by rewrite (Hf x e Hx).
Qed.

Lemma display_value_exn (cells : list string) (idx : Z) (e : exn) :
  display_value cells idx = Raise e → e = IndexError.
Proof.
  unfold display_value. destruct (py_getitem cells idx) as [c|e'] eqn:Hc; [done|].
  cbn [mbind result_bind]. intros [= <-]. by apply py_getitem_exn in Hc.
Qed.

Lemma render_row_exn (cells : list string) (start : Z) (e : exn) :
  render_row cells start = Raise e → e = IndexError.
Proof.
  unfold render_row.
  destruct (mapM (display_value cells) (seqZ start BOARD_SIZE)) as [vs|e'] eqn:Hm;
    [done|].
  cbn [mbind result_bind]. intros [= <-].
  apply (mapM_result_exn _ _ _ (display_value_exn cells) Hm).
Qed.

Lemma display_value_shown (cells : list string) (idx : nat) (c : string) :
  cells !! idx = Some c → display_value cells (Z.of_nat idx) = Ok (shown idx c).
Proof.
  intros Hc. unfold display_value.
  rewrite (py_getitem_nonneg cells (Z.of_nat idx) c) by (rewrite ?Nat2Z.id; first [lia|done]).
  reflexivity.
Qed.

Lemma display_value_past_end (cells : list string) (idx : Z) :
  Z.of_nat (length cells) <= idx → display_value cells idx = Raise IndexError.
Proof.
  intros Hidx. unfold display_value. by rewrite py_getitem_past_end.
Qed.

Lemma range_step_rows : range_step 0 TOTAL_CELLS BOARD_SIZE = [0; 5; 10; 15; 20].
Proof. reflexivity. Qed.

Lemma render_row_Ok (cells : list string) (start : nat) (ds : list string) :
  length ds = 5%nat →
  (∀ i d, ds !! i = Some d → ∃ c, cells !! (start + i)%nat = Some c
                                    ∧ d = shown (start + i) c) →
  render_row cells (Z.of_nat start)
  = Ok (" " +:+ String.concat " | " ds +:+ " ").
Proof.
  intros Hlen Hds. unfold render_row.
  rewrite (mapM_result_Ok _ _ ds); [done|].
  apply Forall2_same_length_lookup. split.
  - by rewrite length_seqZ, Hlen.
  - intros i idx d Hidx Hd. apply lookup_seqZ in Hidx as [-> _].
    destruct (Hds i d Hd) as (c & Hc & ->).
    replace (Z.of_nat start + Z.of_nat i) with (Z.of_nat (start + i)) by lia.
    by apply display_value_shown.
Qed.

(** On 25 cells or more the text is the layout of what the first 25
    cells show. *)
Lemma render_board_layout (cells : list string) :
  (25 <= length cells)%nat →
  render_board cells = Ok (layout (imap shown (take 25 cells))).
Proof.
  intros Hlen. unfold render_board. rewrite range_step_rows.
  set (ds := imap shown (take 25 cells)).
  assert (Hds : ∀ i d, ds !! i = Some d →
             ∃ c, cells !! i = Some c ∧ d = shown i c).
  { intros i d Hd. unfold ds in Hd. rewrite list_lookup_imap in Hd.
    destruct (take 25 cells !! i) as [c|] eqn:Hc; [|done].
    injection Hd as <-. exists c. split; [|done].
    apply lookup_take_Some in Hc. by destruct Hc. }
  assert (Hdlen : length ds = 25%nat).
  { unfold ds. rewrite length_imap, length_take. lia. }
  assert (Hrow : ∀ start : nat, (start + 5 <= 25)%nat →
             render_row cells (Z.of_nat start)
             = Ok (" " +:+ String.concat " | " (take 5 (drop start ds)) +:+ " ")).
  { intros start Hstart. apply render_row_Ok.
    - rewrite length_take, length_drop. lia.
    - intros i d Hd. apply lookup_take_Some in Hd as [Hd Hi].
      rewrite lookup_drop in Hd. by apply Hds. }
  rewrite (mapM_result_Ok _ _
             ((fun start => " " +:+ String.concat " | " (take 5 (drop start ds)) +:+ " ")
                <$> [0; 5; 10; 15; 20]%nat)); [done|].
  cbn [fmap list_fmap].
  repeat (apply Forall2_cons; split;
          [first [ apply (Hrow 0%nat) | apply (Hrow 5%nat) | apply (Hrow 10%nat)
                 | apply (Hrow 15%nat) | apply (Hrow 20%nat) ]; lia|]).
  apply List.Forall2_nil.
Qed.

Lemma string_length_2 (s : string) :
  String.length s = 2%nat → ∃ a b, s = String a (String b EmptyString).
Proof.
  destruct s as [|a [|b [|c s]]]; try discriminate. intros _. by exists a, b.
Qed.

(** In the layout of 25 two-character cells, cell [i] sits at
    [cell_offset i], and the text has 224 characters. *)
Lemma layout_cells (ds : list string) :
  length ds = 25%nat →
  Forall (fun d => String.length d = 2%nat) ds →
  String.length (layout ds) = 224%nat
  ∧ ∀ i d, ds !! i = Some d → substring (cell_offset i) 2 (layout ds) = d.
Proof.
  intros Hlen Hds.
  do 25 (destruct ds as [|? ds]; [discriminate Hlen|]).
  destruct ds; [|discriminate Hlen]. clear Hlen.
  repeat match goal with
         | H : Forall _ (_ :: _) |- _ => apply Forall_cons in H as [? H]
         end.
  repeat match goal with
         | H : String.length ?s = 2%nat |- _ =>
             apply string_length_2 in H as (? & ? & ->)
         end.
  split; [vm_compute; reflexivity|].
  intros i d Hd.
  do 25 (destruct i as [|i]; [injection Hd as <-; vm_compute; reflexivity|]).
  done.
Qed.

Lemma shown_valid (idx : nat) (c : string) :
  (idx < 25)%nat → is_cell c →
  String.length (shown idx c) = 2%nat
  ∧ shown idx c = (if decide (c = Empty) then format_center 2 (str (Z.of_nat idx + 1))
                   else c +:+ " ").
Proof.
  intros Hidx [->|[->| ->]]; [|by split..].
  rewrite decide_True by done.
  do 25 (destruct idx as [|idx]; [by split|]). lia.
Qed.

Lemma shown_inj (idx : nat) (c1 c2 : string) :
  (idx < 25)%nat → is_cell c1 → is_cell c2 →
  shown idx c1 = shown idx c2 → c1 = c2.
Proof.
  intros Hidx [->|[->| ->]] [->|[->| ->]]; try done;
    (do 25 (destruct idx as [|idx]; [by vm_compute|])); lia.
Qed.

Lemma imap_shown_valid (cells : list string) :
  valid_board cells →
  length (imap shown cells) = 25%nat
  ∧ Forall (fun d => String.length d = 2%nat) (imap shown cells).
Proof.
  intros [Hlen Hcells]. unfold TOTAL_CELLS, BOARD_SIZE in Hlen.
  split; [rewrite length_imap; lia|].
  apply Forall_lookup. intros i d Hd. rewrite list_lookup_imap in Hd.
  destruct (cells !! i) as [c|] eqn:Hc; [|done]. injection Hd as <-.
  apply shown_valid.
  - apply lookup_lt_Some in Hc. lia.
  - rewrite Forall_lookup in Hcells. by apply (Hcells i).
Qed.

(** X8. The picture of a board of the data model has 224 characters, and
    cell [idx] occupies the two characters at offset
    [50 * (idx / 5) + 1 + 5 * (idx mod 5)]: the mark followed by a space
    when the cell is marked, the number [idx + 1] (padded on the right to
    two characters) when it is Empty. *)
Theorem render_board_cells (cells : list string) :
  valid_board cells →
  ∃ out, render_board cells = Ok out
    ∧ String.length out = 224%nat
    ∧ ∀ idx c, cells !! idx = Some c →
        substring (cell_offset idx) 2 out
        = (if decide (c = Empty) then format_center 2 (str (Z.of_nat idx + 1))
           else c +:+ " ").
Proof.
  intros Hvalid. pose proof Hvalid as [Hlen Hcells].
  unfold TOTAL_CELLS, BOARD_SIZE in Hlen.
  destruct (imap_shown_valid cells Hvalid) as [Hdlen Hd2].
  destruct (layout_cells _ Hdlen Hd2) as [Hsize Hsub].
  exists (layout (imap shown cells)). split_and!.
  - rewrite render_board_layout by lia. by rewrite take_ge by lia.
  - exact Hsize.
  - intros idx c Hc.
    rewrite (Hsub idx (shown idx c)) by (by rewrite list_lookup_imap, Hc).
    apply shown_valid.
    + apply lookup_lt_Some in Hc. lia.
    + rewrite Forall_lookup in Hcells. by apply (Hcells idx).
Qed.

Lemma render_board_cells_witness :
  valid_board (board st_x_wins)
  ∧ ∃ out, render_board (board st_x_wins) = Ok out
      ∧ String.length out = 224%nat
      ∧ substring (cell_offset 3) 2 out = "X "
      ∧ substring (cell_offset 9) 2 out = "10".
Proof.
  split; [exact st_x_wins_valid|].
  destruct (render_board_cells (board st_x_wins) st_x_wins_valid)
    as (out & Hout & Hlen & Hsub).
  exists out. split; [exact Hout|]. split; [exact Hlen|]. split.
  - exact (Hsub 3%nat "X" eq_refl).
  - exact (Hsub 9%nat " " eq_refl).
Defined.

(** X9. Two boards of the data model with the same picture are the same
    board. *)
Theorem render_board_inj (b1 b2 : list string) :
  valid_board b1 → valid_board b2 →
  render_board b1 = render_board b2 → b1 = b2.
Proof.
  intros Hv1 Hv2 Heq.
  pose proof Hv1 as [Hlen1 Hcells1]. pose proof Hv2 as [Hlen2 Hcells2].
  unfold TOTAL_CELLS, BOARD_SIZE in Hlen1, Hlen2.
  rewrite !render_board_layout in Heq by lia.
  rewrite !take_ge in Heq by lia.
  pose proof (f_equal (fun r => match r with Ok x => x | Raise _ => "" end) Heq)
    as Hlay.
  cbv beta iota in Hlay. clear Heq.
  destruct (imap_shown_valid b1 Hv1) as [Hdlen1 Hd1].
  destruct (imap_shown_valid b2 Hv2) as [Hdlen2 Hd2].
  destruct (layout_cells _ Hdlen1 Hd1) as [_ Hsub1].
  destruct (layout_cells _ Hdlen2 Hd2) as [_ Hsub2].
  apply list_eq_same_length with 25%nat; [lia|lia|].
  intros i c1 c2 Hi Hc1 Hc2.
  apply (shown_inj i); [done| | |].
  - rewrite Forall_lookup in Hcells1. by apply (Hcells1 i).
  - rewrite Forall_lookup in Hcells2. by apply (Hcells2 i).
  - rewrite <- (Hsub1 i (shown i c1)) by (by rewrite list_lookup_imap, Hc1).
    rewrite <- (Hsub2 i (shown i c2)) by (by rewrite list_lookup_imap, Hc2).
    by rewrite Hlay.
Qed.

Lemma render_board_inj_witness :
  valid_board (board st_x_wins) ∧ valid_board (board st_x_wins)
  ∧ board st_x_wins = board st_x_wins.
Proof.
  split; [exact st_x_wins_valid|]. split; [exact st_x_wins_valid|].
  exact (render_board_inj _ _ st_x_wins_valid st_x_wins_valid eq_refl).
Defined.

(** X10. [render_board] raises [IndexError] exactly on boards with fewer
    than 25 cells; on a longer board it shows the first 25 cells only. *)
Theorem render_board_length (cells : list string) :
  (render_board cells = Raise IndexError ↔ (length cells < 25)%nat)
  ∧ ((25 <= length cells)%nat → render_board cells = render_board (take 25 cells)).
Proof.
  split.
  - split.
    + intros Hraise. destruct (decide (length cells < 25)%nat) as [|Hge]; [done|].
      by rewrite render_board_layout in Hraise by lia.
    + intros Hlt. unfold render_board. rewrite range_step_rows.
      rewrite (mapM_result_Raise (render_row cells));
        [done|apply render_row_exn|].
      assert (Hrow : ∀ start, 0 <= start → start <= Z.of_nat (length cells) < start + 5 →
                render_row cells start = Raise IndexError).
      { intros start Hs Hin. unfold render_row.
        rewrite (mapM_result_Raise (display_value cells));
          [done|apply display_value_exn|].
        apply Exists_exists. exists (Z.of_nat (length cells)). split.
        - apply elem_of_seqZ. unfold BOARD_SIZE. lia.
        - by apply display_value_past_end. }
      apply Exists_exists.
      exists (5 * (Z.of_nat (length cells) / 5)). split.
      * assert (Hq : 0 <= Z.of_nat (length cells) / 5 < 5)
          by (split; [apply Z.div_pos; lia | apply Z.div_lt_upper_bound; lia]).
        assert (Hcases : Z.of_nat (length cells) / 5 = 0
                         ∨ Z.of_nat (length cells) / 5 = 1
                         ∨ Z.of_nat (length cells) / 5 = 2
                         ∨ Z.of_nat (length cells) / 5 = 3
                         ∨ Z.of_nat (length cells) / 5 = 4) by lia.
        destruct Hcases as [->|[->|[->|[->| ->]]]]; cbn [Z.mul Pos.mul];
          repeat constructor.
      * apply Hrow; [|].
        -- assert (0 <= Z.of_nat (length cells) / 5) by (apply Z.div_pos; lia). lia.
        -- pose proof (Z.mul_div_le (Z.of_nat (length cells)) 5 ltac:(lia)).
           pose proof (Z.mul_succ_div_gt (Z.of_nat (length cells)) 5 ltac:(lia)).
           lia.
  - intros Hlen. rewrite !render_board_layout by (rewrite ?length_take; lia).
    by rewrite take_take, Nat.min_id.
Qed.

Lemma render_board_length_witness :
  (length ["X"; "O"] < 25)%nat ∧ render_board ["X"; "O"] = Raise IndexError.
Proof.
  assert (H : (length ["X"; "O"] < 25)%nat) by (cbn [length]; lia).
  split; [exact H|]. exact (proj2 (proj1 (render_board_length ["X"; "O"])) H).
Defined.

(** ** The session *)

Lemma evaluate_state_no_raise (st : GameState) :
  TOTAL_CELLS <= Z.of_nat (length (board st)) → ∃ o, evaluate_state st = Ok o.
Proof.
  intros Hlen. pose proof (WINNING_LINES_scannable_ge _ Hlen) as Hsc.
  unfold evaluate_state, check_winner.
  destruct (check_lines (board st) WINNING_LINES) as [w|e] eqn:Hw.
  - cbn [mbind result_bind]. destruct (py_truthy w); [by eexists|].
    destruct (is_draw (board st)); by eexists.
  - by destruct (check_lines_no_raise _ _ e Hsc).
Qed.

(** [_get_state] always returns a state of 25 cells, and a session that
    it reads back in the same way. *)
Lemma get_state_cases (session : App.Session) :
  (∃ cells, App.s_board session = Some cells
            ∧ Z.of_nat (length cells) = TOTAL_CELLS
            ∧ App._get_state session
              = (session, {| board := cells;
                             active := default "X" (App.s_active session) |}))
  ∨ ((App.s_board session = None
      ∨ ∃ cells, App.s_board session = Some cells
                 ∧ Z.of_nat (length cells) ≠ TOTAL_CELLS)
     ∧ App._get_state session = (App.session_of (new_game None), new_game None)).
Proof.
  destruct (App.s_board session) as [cells|] eqn:Hb.
  - destruct (decide (Z.of_nat (length cells) = TOTAL_CELLS)) as [Hlen|Hlen].
    + left. exists cells. split_and!; [done|done|]. by apply get_state_stored.
    + right. split; [right; by exists cells|].
      unfold App._get_state. rewrite Hb.
      apply Z.eqb_neq in Hlen. rewrite Hlen. by rewrite orb_true_r.
  - right. split; [by left|]. unfold App._get_state. by rewrite Hb.
Qed.

Lemma get_state_length (session : App.Session) :
  Z.of_nat (length (board (App._get_state session).2)) = TOTAL_CELLS.
Proof.
  destruct (get_state_cases session) as [(cells & _ & Hlen & ->)|[_ ->]]; done.
Qed.

Lemma get_state_idempotent (session : App.Session) :
  App._get_state (App._get_state session).1 = App._get_state session.
Proof.
  destruct (get_state_cases session) as [(cells & _ & _ & Heq)|[_ ->]]; [|done].
  rewrite Heq at 1. cbn [fst]. by rewrite Heq.
Qed.

(** X11. Storing a state of 25 cells and reading the session again gives
    the state back, whatever the session held before; the session is left
    as stored. *)
Theorem set_state_get_state (st : GameState) (session : App.Session) :
  Z.of_nat (length (board st)) = TOTAL_CELLS →
  App._get_state (App._set_state st session) = (App._set_state st session, st).
Proof.
  intros Hlen. rewrite (get_state_stored _ (board st)) by done.
  by destruct st.
Qed.

Lemma set_state_get_state_witness :
  Z.of_nat (length (board st_draw)) = TOTAL_CELLS
  ∧ App._get_state (App._set_state st_draw fresh_session)
    = (App._set_state st_draw fresh_session, st_draw).
Proof.
  assert (H : Z.of_nat (length (board st_draw)) = TOTAL_CELLS) by reflexivity.
  split; [exact H|]. exact (set_state_get_state st_draw fresh_session H).
Defined.

(** What the handler of [POST /move] does, case by case. *)
Lemma move_cases (session : App.Session) (position : option Z) :
  let s := (App._get_state session).1 in
  let st := (App._get_state session).2 in
  ∃ o, evaluate_state st = Ok o
    ∧ ((py_truthy o = true ∧ App.move session position = Ok (s, Some App.MSG_FINISHED))
       ∨ (py_truthy o = false ∧ position = None
          ∧ App.move session position = Ok (s, Some App.MSG_INVALID))
       ∨ (py_truthy o = false
          ∧ ∃ p, position = Some p ∧ (p < 0 ∨ p >= TOTAL_CELLS)
                 ∧ App.move session position = Ok (s, Some App.MSG_OUTSIDE))
       ∨ (py_truthy o = false
          ∧ ∃ p c, position = Some p ∧ 0 <= p < TOTAL_CELLS
                   ∧ py_getitem (board st) p = Ok c ∧ c ≠ Empty
                   ∧ App.move session position = Ok (s, Some App.MSG_TAKEN))
       ∨ (py_truthy o = false
          ∧ ∃ p st', position = Some p ∧ 0 <= p < TOTAL_CELLS
                     ∧ py_getitem (board st) p = Ok Empty
                     ∧ make_move st p = Ok st'
                     ∧ App.move session position = Ok (App.session_of st', None))).
Proof.
  cbv zeta. pose proof (get_state_length session) as Hlen.
  unfold App.move. destruct (App._get_state session) as [s st]. cbn [fst snd] in *.
  destruct (evaluate_state_no_raise st) as [o Ho]; [lia|].
  exists o. split; [done|]. rewrite Ho. cbn [mbind result_bind].
  destruct (py_truthy o); [by left|]. right.
  destruct position as [p|]; [|by left]. right.
  case_bool_decide as Hout; [left; split; [done|]; by exists p|]. right.
  destruct (py_getitem_in_range (board st) p) as (c & _ & Hc); [lia|].
  rewrite Hc. cbn [mbind result_bind].
  destruct (String.eqb_spec c " ") as [->|Hne]; cbn [negb].
  - right. split; [done|].
    assert (Hk : py_index (length (board st)) p = Ok (Z.to_nat p))
      by (apply py_index_nonneg; lia).
    rewrite (make_move_at st p _ Hk). cbn [mbind result_bind].
    eexists p, _. split_and!; [done|lia|lia|done|by apply make_move_at|done].
  - left. split; [done|]. exists p, c. split_and!; [done|lia|lia|done|done|done].
Qed.

(** X12. The handler of [POST /move] never raises.  It applies the move,
    flashing nothing, exactly when the stored game is in progress and the
    position is a number of [0, 25) whose cell is Empty; the session then
    holds the state that [make_move] returns.  In every other case it
    flashes a message and the stored state is what it was. *)
Theorem move_accepts_exactly (session : App.Session) (position : option Z) :
  ∃ s' flash o,
    App.move session position = Ok (s', flash)
    ∧ evaluate_state (App._get_state session).2 = Ok o
    ∧ (flash = None
       ↔ py_truthy o = false
         ∧ ∃ p, position = Some p ∧ 0 <= p < TOTAL_CELLS
                ∧ py_getitem (board (App._get_state session).2) p = Ok Empty)
    ∧ (flash = None →
       ∃ p st', position = Some p
                ∧ make_move (App._get_state session).2 p = Ok st'
                ∧ App._get_state s' = (s', st'))
    ∧ (flash ≠ None →
       s' = (App._get_state session).1
       ∧ App._get_state s' = App._get_state session).
Proof.
  destruct (move_cases session position) as (o & Ho & Hcases). cbv zeta in Hcases.
  pose proof (get_state_length session) as Hlen.
  destruct Hcases as [[Ht Hmv]|[(Ht & -> & Hmv)|[(Ht & p & -> & Hp & Hmv)
                     |[(Ht & p & c & -> & Hp & Hc & Hne & Hmv)
                      |(Ht & p & st' & -> & Hp & Hc & Hst' & Hmv)]]]].
  - eexists _, _, o. split; [exact Hmv|]. split; [done|]. split_and!.
    + split; [done|]. intros [Hf _]. congruence.
    + done.
    + intros _. split; [done|]. apply get_state_idempotent.
  - eexists _, _, o. split; [exact Hmv|]. split; [done|]. split_and!.
    + split; [done|]. by intros (_ & p & ? & _).
    + done.
    + intros _. split; [done|]. apply get_state_idempotent.
  - eexists _, _, o. split; [exact Hmv|]. split; [done|]. split_and!.
    + split; [done|]. intros (_ & p' & [= <-] & ? & _). lia.
    + done.
    + intros _. split; [done|]. apply get_state_idempotent.
  - eexists _, _, o. split; [exact Hmv|]. split; [done|]. split_and!.
    + split; [done|]. intros (_ & p' & [= <-] & _ & Hc'). congruence.
    + done.
    + intros _. split; [done|]. apply get_state_idempotent.
  - eexists _, _, o. split; [exact Hmv|]. split; [done|]. split_and!.
    + split; [|done]. intros _. split; [done|]. by exists p.
    + intros _. exists p, st'. split_and!; [done|done|].
      apply get_state_session_of.
      assert (Hk : py_index (length (board (App._get_state session).2)) p
                   = Ok (Z.to_nat p)) by (apply py_index_nonneg; lia).
      rewrite (make_move_at _ p _ Hk) in Hst'. injection Hst' as <-.
      cbn [board]. by rewrite length_insert.
    + done.
Qed.

Lemma move_accepts_exactly_witness :
  ∃ s' st', App.move (App.session_of st_two_moves) (Some 7) = Ok (s', None)
            ∧ make_move st_two_moves 7 = Ok st'
            ∧ App._get_state s' = (s', st').
Proof.
  destruct (move_accepts_exactly (App.session_of st_two_moves) (Some 7))
    as (s' & flash & o & Hmv & _ & _ & Hacc & _).
  assert (Hflash : flash = None).
  { assert (Hc : App.move (App.session_of st_two_moves) (Some 7)
                 = Ok (App._set_state
                         {| board := <[7%nat := "X"]> (board st_two_moves);
                            active := "O" |} (App.session_of st_two_moves), None))
      by reflexivity.
    rewrite Hc in Hmv. injection Hmv as _ <-. reflexivity. }
  destruct (Hacc Hflash) as (p & st' & Hp & Hst' & Hget).
  injection Hp as <-. subst flash.
  exists s', st'. split; [exact Hmv|]. split; [exact Hst'|exact Hget].
Defined.

(** ** The page *)

Lemma indexed_row (cells : list string) (start : nat) :
  (start + 5 <= length cells)%nat →
  mapM (fun idx => c ← py_getitem cells idx; Ok (idx, c))
       (seqZ (Z.of_nat start) BOARD_SIZE)
  = Ok (zip (seqZ (Z.of_nat start) 5) (take 5 (drop start cells))).
Proof.
  intros Hlen. apply mapM_result_Ok.
  apply Forall2_same_length_lookup. split.
  - rewrite length_zip_with, !length_seqZ, length_take, length_drop.
    unfold BOARD_SIZE. lia.
  - intros i idx [idx' c] Hidx Hz.
    apply lookup_zip_with_Some in Hz as (x & y & [= -> ->] & Hx & Hy).
    unfold BOARD_SIZE in Hidx. assert (idx = x) as -> by congruence.
    apply lookup_seqZ in Hx as [-> Hi].
    apply lookup_take_Some in Hy as [Hy _]. rewrite lookup_drop in Hy.
    rewrite (py_getitem_nonneg cells _ y); [done|lia|].
    by replace (Z.to_nat (Z.of_nat start + Z.of_nat i)) with (start + i)%nat by lia.
Qed.

Lemma board_rows_Ok (cells : list string) :
  (25 <= length cells)%nat →
  Web._board_rows cells
  = Ok ((fun start : nat => zip (seqZ (Z.of_nat start) 5) (take 5 (drop start cells)))
          <$> [0; 5; 10; 15; 20]%nat).
Proof.
  intros Hlen. unfold Web._board_rows. rewrite range_step_rows.
  apply mapM_result_Ok. cbn [fmap list_fmap].
  repeat (apply Forall2_cons; split;
          [first [ apply (indexed_row cells 0) | apply (indexed_row cells 5)
                 | apply (indexed_row cells 10) | apply (indexed_row cells 15)
                 | apply (indexed_row cells 20) ]; lia|]).
  apply List.Forall2_nil.
Qed.

Lemma board_rows_concat (cells : list string) :
  (25 <= length cells)%nat →
  concat ((fun start : nat => zip (seqZ (Z.of_nat start) 5) (take 5 (drop start cells)))
            <$> [0; 5; 10; 15; 20]%nat)
  = zip (seqZ 0 25) (take 25 cells).
Proof.
  intros Hlen.
  do 25 (destruct cells as [|? cells]; [cbn [length] in Hlen; lia|]).
  reflexivity.
Qed.

(** X13. On 25 cells or more [_board_rows] returns five rows of five
    pairs which, read row after row, are the first 25 cells paired with
    their indices 0 .. 24; on fewer cells it raises [IndexError]. *)
Theorem board_rows_spec (cells : list string) :
  ((25 <= length cells)%nat →
   ∃ rows, Web._board_rows cells = Ok rows
     ∧ length rows = 5%nat
     ∧ Forall (fun row => length row = 5%nat) rows
     ∧ concat rows = zip (seqZ 0 25) (take 25 cells))
  ∧ ((length cells < 25)%nat → Web._board_rows cells = Raise IndexError).
Proof.
  split.
  - intros Hlen. eexists. split; [by apply board_rows_Ok|]. split_and!.
    + reflexivity.
    + cbn [fmap list_fmap].
      repeat (apply List.Forall_cons;
              [rewrite length_zip_with, length_seqZ, length_take, length_drop; lia|]).
      apply List.Forall_nil.
    + by apply board_rows_concat.
  - intros Hlt. unfold Web._board_rows. rewrite range_step_rows.
    assert (Hcell : ∀ idx e, (c ← py_getitem cells idx; Ok (idx, c)) = Raise e →
              e = IndexError).
    { intros idx e. destruct (py_getitem cells idx) as [c|e'] eqn:Hc; [done|].
      cbn [mbind result_bind]. intros [= <-]. by apply py_getitem_exn in Hc. }
    apply mapM_result_Raise;
      [intros start e; by apply mapM_result_exn|].
    apply Exists_exists.
    exists (5 * (Z.of_nat (length cells) / 5)). split.
    + assert (Hq : 0 <= Z.of_nat (length cells) / 5 < 5)
        by (split; [apply Z.div_pos; lia | apply Z.div_lt_upper_bound; lia]).
      assert (Hcases : Z.of_nat (length cells) / 5 = 0
                       ∨ Z.of_nat (length cells) / 5 = 1
                       ∨ Z.of_nat (length cells) / 5 = 2
                       ∨ Z.of_nat (length cells) / 5 = 3
                       ∨ Z.of_nat (length cells) / 5 = 4) by lia.
      destruct Hcases as [->|[->|[->|[->| ->]]]]; cbn [Z.mul Pos.mul];
        repeat constructor.
    + apply mapM_result_Raise; [exact Hcell|]. apply Exists_exists.
      exists (Z.of_nat (length cells)). split.
      * apply elem_of_seqZ. unfold BOARD_SIZE.
        pose proof (Z.mul_div_le (Z.of_nat (length cells)) 5 ltac:(lia)).
        pose proof (Z.mul_succ_div_gt (Z.of_nat (length cells)) 5 ltac:(lia)).
        lia.
      * by rewrite py_getitem_past_end.
Qed.

Lemma board_rows_spec_witness :
  ((25 <= length (board st_draw))%nat
   ∧ ∃ rows, Web._board_rows (board st_draw) = Ok rows
       ∧ concat rows = zip (seqZ 0 25) (take 25 (board st_draw)))
  ∧ ((length ["X"] < 25)%nat ∧ Web._board_rows ["X"] = Raise IndexError).
Proof.
  assert (H1 : (25 <= length (board st_draw))%nat) by (cbn [length board st_draw]; lia).
  assert (H2 : (length ["X"] < 25)%nat) by (cbn [length]; lia).
  split; (split; [first [exact H1 | exact H2]|]).
  - destruct (proj1 (board_rows_spec (board st_draw)) H1) as (rows & Hr & _ & _ & Hc).
    exists rows. split; [exact Hr|exact Hc].
  - exact (proj2 (board_rows_spec ["X"]) H2).
Defined.

(** What [index] hands to the template, for every session. *)
Lemma index_context_Ok (session : App.Session) :
  ∃ ctx, Web.index_context session = Ok ((App._get_state session).1, ctx)
    ∧ concat (Web.rows ctx) = zip (seqZ 0 25) (board (App._get_state session).2)
    ∧ Web.active_player ctx = active (App._get_state session).2
    ∧ evaluate_state (App._get_state session).2 = Ok (Web.outcome ctx)
    ∧ Web.board_size ctx = 5 ∧ Web.total_cells ctx = 25.
Proof.
  pose proof (get_state_length session) as Hlen.
  unfold Web.index_context.
  destruct (App._get_state session) as [s st]. cbn [fst snd] in *.
  unfold TOTAL_CELLS, BOARD_SIZE in Hlen.
  destruct (evaluate_state_no_raise st) as [o Ho];
    [unfold TOTAL_CELLS, BOARD_SIZE; lia|].
  rewrite Ho. cbn [mbind result_bind].
  rewrite board_rows_Ok by lia. cbn [mbind result_bind].
  eexists. split; [done|]. cbn [Web.rows Web.active_player Web.outcome
                                 Web.board_size Web.total_cells].
  split_and!; try done.
  rewrite board_rows_concat by lia. by rewrite take_ge by lia.
Qed.

(** X14. For every session the handler of [GET /] computes the arguments
    of [render_template] without raising: the 25 cells of the state that
    [_get_state] returns, with their indices, in five rows; the active
    mark; the outcome of [evaluate_state]; the sizes 5 and 25.  The
    handler then returns what [render_template] returns on them, so it
    raises only if [render_template] does, and it changes the session
    only as [_get_state] does. *)
Theorem index_shows_state (render_template : Web.Context → result string)
    (session : App.Session) :
  ∃ ctx, Web.index_context session = Ok ((App._get_state session).1, ctx)
    ∧ concat (Web.rows ctx) = zip (seqZ 0 25) (board (App._get_state session).2)
    ∧ Web.active_player ctx = active (App._get_state session).2
    ∧ evaluate_state (App._get_state session).2 = Ok (Web.outcome ctx)
    ∧ Web.board_size ctx = 5 ∧ Web.total_cells ctx = 25
    ∧ Web.index render_template session
      = (page ← render_template ctx; Ok ((App._get_state session).1, page)).
Proof.
  destruct (index_context_Ok session) as (ctx & Hctx & Hrows & Hact & Hout & Hbs & Htc).
  exists ctx. split_and!; try done.
  unfold Web.index. by rewrite Hctx.
Qed.

(** ** The game behind the routes *)

Lemma good_session_fresh : good_session (App.session_of (new_game None)).
Proof. exists (new_game None). split; [done|exact game_invariant_new]. Qed.

Lemma good_session_get_state (session : App.Session) :
  good_session session ∨ blank_session session →
  ∃ st, App._get_state session = (App.session_of st, st) ∧ game_invariant st.
Proof.
  intros [(st & -> & Hinv)|Hblank].
  - exists st. split; [|done]. apply get_state_session_of. by destruct Hinv as [[? _] _].
  - exists (new_game None). split; [|exact game_invariant_new].
    destruct (get_state_cases session) as [(cells & Hb & Hlen & _)|[_ Heq]]; [|done].
    destruct Hblank as [Hnone|(cells' & Hb' & Hlen')]; congruence.
Qed.

Lemma serve_good (session : App.Session) (req : Web.request) :
  good_session session ∨ blank_session session →
  ∃ s', Web.serve session req = Ok s' ∧ good_session s'.
Proof.
  intros Hs. destruct (good_session_get_state session Hs) as (st & Hget & Hinv).
  destruct req as [|position|].
  - destruct (index_context_Ok session) as (ctx & Hidx & _).
    unfold Web.serve. rewrite Hidx. cbn [mbind result_bind fst].
    eexists. split; [done|]. rewrite Hget. cbn [fst]. by exists st.
  - destruct (move_cases session position) as (o & Ho & Hcases).
    cbv zeta in Hcases. rewrite Hget in Ho, Hcases. cbn [fst snd] in Ho, Hcases.
    unfold Web.serve.
    destruct Hcases as [[Ht Hmv]|[(Ht & -> & Hmv)|[(Ht & p & -> & Hp & Hmv)
                       |[(Ht & p & c & -> & Hp & Hc & Hne & Hmv)
                        |(Ht & p & st' & -> & Hp & Hc & Hst' & Hmv)]]]];
      rewrite Hmv; cbn [mbind result_bind fst]; (eexists; split; [done|]);
      try (by exists st).
    assert (Hnone : evaluate_state st = Ok None).
    { destruct (evaluate_state_valid st) as (o' & Ho' & Hcase);
        [by destruct Hinv|].
      assert (o' = o) as -> by congruence.
      destruct Hcase as [->|[->|[->| ->]]]; done. }
    destruct (game_invariant_step st p Hinv Hnone Hp Hc) as (st'' & Hst'' & Hinv' & _).
    assert (st'' = st') as -> by congruence. by exists st'.
  - unfold Web.serve. eexists. split; [done|]. exact good_session_fresh.
Qed.

Lemma serve_all_good (reqs : list Web.request) (session : App.Session) :
  good_session session →
  ∃ s', Web.serve_all session reqs = Ok s' ∧ good_session s'.
Proof.
  revert session. induction reqs as [|req reqs IH]; intros session Hgood.
  - by exists session.
  - destruct (serve_good session req (or_introl Hgood)) as (s1 & Hs1 & Hgood1).
    cbn [Web.serve_all]. rewrite Hs1. cbn [mbind result_bind]. by apply IH.
Qed.

(** X15. The game behind the routes is played by the rules.  Starting
    from a session without a usable board (a new visitor), or from a
    session that holds a game played by the rules, the session that a
    non-empty sequence of requests leaves (for [GET /]: as it is when
    [render_template] is called) holds such a game: 25 cells, each Empty,
    X or O; X or O to move; as many X as O, one more when O is to move;
    every won line won by the player who moved last.  The same holds
    from any session once [POST /reset] was served. *)
Theorem web_game_invariant :
  (∀ reqs session s',
     good_session session ∨ blank_session session →
     reqs ≠ [] →
     Web.serve_all session reqs = Ok s' →
     ∃ st, s' = App.session_of st ∧ game_invariant st)
  ∧ (∀ reqs session s',
       Web.serve_all session (Web.PostReset :: reqs) = Ok s' →
       ∃ st, s' = App.session_of st ∧ game_invariant st).
Proof.
  split.
  - intros [|req reqs] session s' Hs Hne Hrun; [done|].
    destruct (serve_good session req Hs) as (s1 & Hs1 & Hgood1).
    cbn [Web.serve_all] in Hrun. rewrite Hs1 in Hrun. cbn [mbind result_bind] in Hrun.
    destruct (serve_all_good reqs s1 Hgood1) as (s2 & Hs2 & Hgood2).
    assert (s2 = s') as -> by congruence. exact Hgood2.
  - intros reqs session s' Hrun. cbn [Web.serve_all Web.serve] in Hrun.
    cbn [mbind result_bind] in Hrun.
    destruct (serve_all_good reqs _ good_session_fresh) as (s2 & Hs2 & Hgood2).
    change (Web.serve_all (App.session_of (new_game None)) reqs = Ok s') in Hrun.
    assert (s2 = s') as -> by congruence.
    exact Hgood2.
Qed.

Lemma web_game_invariant_witness :
  blank_session empty_session
  ∧ ∃ s' st,
      Web.serve_all empty_session
        [Web.GetIndex; Web.PostMove (Some 12); Web.PostMove (Some 12);
         Web.PostMove None; Web.PostMove (Some 0)] = Ok s'
      ∧ s' = App.session_of st ∧ game_invariant st
      ∧ board st !! 12%nat = Some "X" ∧ board st !! 0%nat = Some "O".
Proof.
  assert (Hb : blank_session empty_session) by (left; reflexivity).
  split; [exact Hb|].
  destruct web_game_invariant as (Hinv & _).
  eexists _, _. split; [reflexivity|].
  destruct (Hinv [Web.GetIndex; Web.PostMove (Some 12); Web.PostMove (Some 12);
                  Web.PostMove None; Web.PostMove (Some 0)]
                 empty_session _ (or_intror Hb) ltac:(discriminate) eq_refl)
    as (st & Heq & Hst).
  split; [reflexivity|]. split; [|split; reflexivity].
  injection Heq as Hboard Hactive.
  destruct st as [b a]. cbn [board active] in Hboard, Hactive. subst b a.
  exact Hst.
Defined.

(** ** A round at the terminal *)

Lemma render_board_valid (cells : list string) :
  valid_board cells → ∃ picture, render_board cells = Ok picture.
Proof.
  intros [Hlen _]. unfold TOTAL_CELLS, BOARD_SIZE in Hlen.
  eexists. apply render_board_layout. lia.
Qed.

Lemma last_app_Some {A} (l k : list A) (x : A) :
  last k = Some x → last (l ++ k) = Some x.
Proof.
  intros Hk. destruct k as [|y k]; [done|].
  by rewrite last_app_cons.
Qed.

Lemma outcome_not_a_mark (o : option string) :
  o = None ∨ o = Some "draw" → o ∉ [Some "X"; Some "O"].
Proof.
  intros Ho Hin.
  repeat (apply elem_of_cons in Hin as [Hin|Hin];
          [destruct Ho as [->| ->]; discriminate Hin|]).
  by apply elem_of_nil in Hin.
Qed.

(** The loop started on a game in progress with enough fuel for the cells
    still Empty ends with an announcement, at the end of the input, or
    with the [ValueError] of a line of too many digits. *)
Lemma play_round_loop_ends (fuel : nat) :
  ∀ (st : GameState) (inputs : list string),
    game_invariant st →
    evaluate_state st = Ok None →
    (marked (board st) + fuel = 25)%nat →
    ∃ out e rest,
      play_round_loop fuel st inputs = Some (out, e, rest)
      ∧ ((∃ w, is_mark w ∧ e = RoundWon w
               ∧ last out = Some (NL +:+ "Player " +:+ w +:+ " wins!"))
         ∨ (e = RoundDraw ∧ last out = Some (NL +:+ "It's a draw!"))
         ∨ (e = RoundEOF ∧ rest = [])
         ∨ (e = RoundRaise ValueError
            ∧ ∃ raw, raw ∈ inputs ∧ isdigit raw = true
                     ∧ INT_MAX_STR_DIGITS < Z.of_nat (String.length raw))).
Proof.
  induction fuel as [|fuel IH]; intros st inputs Hinv Hev Hfuel.
  - exfalso. pose proof Hinv as ([Hlen Hcells] & _).
    destruct (evaluate_state_None_inv st (conj Hlen Hcells) Hev) as [_ Hd].
    apply marked_lt_length in Hd. unfold TOTAL_CELLS, BOARD_SIZE in Hlen. lia.
  - pose proof Hinv as (Hvalid & _).
    destruct (render_board_valid _ Hvalid) as [picture Hpic].
    cbn [play_round_loop]. rewrite Hpic.
    pose proof (get_move_result (active st) (board st) inputs) as Hres.
    cbv zeta in Hres.
    destruct (get_move (active st) (board st) inputs) as [asked r].
    cbn [fst snd] in Hres.
    destruct r as [[slot|]|e].
    + destruct Hres as (Hslot & Hcell & raw0 & Hsplit & _).
      destruct (game_invariant_step st slot Hinv Hev Hslot Hcell)
        as (st' & Hmv & Hinv' & Hmarked).
      rewrite Hmv. pose proof Hinv' as (Hvalid' & _).
      destruct (evaluate_state_valid st' Hvalid') as (o & Ho & Hcase).
      destruct (render_board_valid _ Hvalid') as [picture' Hpic'].
      rewrite Ho.
      destruct Hcase as [->|[->|[->| ->]]].
      * rewrite bool_decide_eq_false_2 by (apply outcome_not_a_mark; by left).
        rewrite bool_decide_eq_false_2 by done.
        destruct (IH st' (get_move_rest (board st) inputs) Hinv' Ho)
          as (out & e & rest & Hloop & Hend); [lia|].
        rewrite Hloop. eexists _, e, rest. split; [done|].
        destruct Hend as [(w & Hw & -> & Hlast)|[[-> Hlast]|[[-> ->]
                         |(-> & raw & Hin & Hd & Hlong)]]].
        -- left. exists w. split_and!; [done|done|]. by apply last_app_Some.
        -- right. left. split; [done|]. by apply last_app_Some.
        -- right. right. left. done.
        -- right. right. right. split; [done|]. exists raw. split_and!; [|done|done].
           rewrite Hsplit. apply elem_of_app. right. by right.
      * rewrite bool_decide_eq_false_2 by (apply outcome_not_a_mark; by right).
        rewrite bool_decide_eq_true_2 by done. rewrite Hpic'.
        eexists _, _, _. split; [done|]. right. left. split; [done|].
        by rewrite last_app.
      * rewrite bool_decide_eq_true_2 by (by left). rewrite Hpic'.
        eexists _, _, _. split; [done|]. left. exists "X".
        split_and!; [by left|done|]. by rewrite last_app.
      * rewrite bool_decide_eq_true_2 by (by right; left). rewrite Hpic'.
        eexists _, _, _. split; [done|]. left. exists "O".
        split_and!; [by right|done|]. by rewrite last_app.
    + destruct Hres as [_ Hrest]. eexists _, _, _. split; [done|].
      right. right. left. done.
    + destruct Hres as (raw & Hsplit & Hd & [[-> Hshort]|[-> Hlong]]).
      * exfalso. destruct Hvalid as [Hlen _]. lia.
      * eexists _, _, _. split; [done|]. right. right. right. split; [done|].
        exists raw. split_and!; [|done|done].
        rewrite Hsplit. apply elem_of_app. right. by left.
Qed.

(** X16. A round always ends, and within 25 moves.  For a console of
    ASCII lines, [play_round] announces a winner X or O, or a draw, as the
    last thing it prints; or it stops at the end of the input (the
    [EOFError] of [input]); or it dies with the [ValueError] that [int]
    raises on a typed line of more than 4300 digits.  Nothing else is
    raised on the way. *)
Theorem play_round_ends (inputs : list string) :
  Forall ascii_text inputs →
  ∃ out e rest,
    play_round inputs = Some (out, e, rest)
    ∧ ((∃ w, is_mark w ∧ e = RoundWon w
             ∧ last out = Some (NL +:+ "Player " +:+ w +:+ " wins!"))
       ∨ (e = RoundDraw ∧ last out = Some (NL +:+ "It's a draw!"))
       ∨ (e = RoundEOF ∧ rest = [])
       ∨ (e = RoundRaise ValueError
          ∧ ∃ raw, raw ∈ inputs ∧ isdigit raw = true
                   ∧ INT_MAX_STR_DIGITS < Z.of_nat (String.length raw))).
Proof.
  intros _. unfold play_round. apply play_round_loop_ends.
  - exact game_invariant_new.
  - reflexivity.
  - reflexivity.
Qed.

Lemma play_round_ends_witness :
  Forall ascii_text ["13"; "x"; "1"]
  ∧ ∃ out e rest,
      play_round ["13"; "x"; "1"] = Some (out, e, rest)
      ∧ ((∃ w, is_mark w ∧ e = RoundWon w
               ∧ last out = Some (NL +:+ "Player " +:+ w +:+ " wins!"))
         ∨ (e = RoundDraw ∧ last out = Some (NL +:+ "It's a draw!"))
         ∨ (e = RoundEOF ∧ rest = [])
         ∨ (e = RoundRaise ValueError
            ∧ ∃ raw, raw ∈ ["13"; "x"; "1"] ∧ isdigit raw = true
                     ∧ INT_MAX_STR_DIGITS < Z.of_nat (String.length raw))).
Proof.
  assert (Ha : Forall ascii_text ["13"; "x"; "1"])
    by (unfold ascii_text; repeat constructor).
  split; [exact Ha|]. exact (play_round_ends ["13"; "x"; "1"] Ha).
Defined.

Example play_round_x_wins :
  (fun r => (r.1.2, r.2))
    <$> play_round ["1"; "6"; "2"; "7"; "2"; "3"; "8"; "4"; "zero"; "9"; "5"; "y"]
  = Some (RoundWon "X", ["y"]).
Proof. vm_compute. reflexivity. Qed.

(** ** Another round? *)



(** ** A finished game stays finished *)

Lemma terminal_get_state (session : App.Session) (o : string) :
  evaluate_state (App._get_state session).2 = Ok (Some o) →
  (App._get_state session).1 = session.
Proof.
  intros Hev.
  destruct (get_state_cases session) as [(cells & _ & _ & ->)|[_ Heq]]; [done|].
  by rewrite Heq in Hev.
Qed.

(** X18. Once the stored game is won or drawn, only [POST /reset] changes
    the session: any sequence of [GET /] and [POST /move] requests,
    whatever the positions, leaves the session exactly as it was. *)
Theorem terminal_session_locked (session : App.Session) (o : string)
    (reqs : list Web.request) :
  evaluate_state (App._get_state session).2 = Ok (Some o) →
  o = "X" ∨ o = "O" ∨ o = "draw" →
  Forall (fun req => req ≠ Web.PostReset) reqs →
  Web.serve_all session reqs = Ok session.
Proof.
  intros Hev Ho Hreqs.
  pose proof (terminal_get_state session o Hev) as Hsame.
  induction Hreqs as [|req reqs Hreq _ IH]; [done|].
  cbn [Web.serve_all].
  assert (Hserve : Web.serve session req = Ok session).
  { destruct req as [|position|]; [| |done]; unfold Web.serve.
    - destruct (index_context_Ok session) as (ctx & -> & _).
      cbn [mbind result_bind fst]. by rewrite Hsame.
    - assert (Hmv : App.move session position = Ok (session, Some App.MSG_FINISHED)).
      { unfold App.move. destruct (App._get_state session) as [s st].
        cbn [fst snd] in Hev, Hsame. subst s. rewrite Hev.
        cbn [mbind result_bind]. by destruct Ho as [->|[->| ->]]. }
      by rewrite Hmv. }
  rewrite Hserve. cbn [mbind result_bind]. exact IH.
Qed.

Lemma terminal_session_locked_witness :
  evaluate_state (App._get_state (App.session_of st_x_wins)).2 = Ok (Some "X")
  ∧ Web.serve_all (App.session_of st_x_wins)
      [Web.PostMove (Some 9); Web.GetIndex; Web.PostMove None; Web.PostMove (Some (-1))]
    = Ok (App.session_of st_x_wins).
Proof.
  assert (H1 : evaluate_state (App._get_state (App.session_of st_x_wins)).2
               = Ok (Some "X")) by reflexivity.
  split; [exact H1|].
  apply (terminal_session_locked _ "X" _ H1); [by left|].
  repeat (apply List.Forall_cons; [discriminate|]). apply List.Forall_nil.
Defined.
